(** * Session errors of the Globus SDK: validation and dictionary round trip

    A shallow embedding of
    [globus_sdk/experimental/session_error/session_error.py]:
    the two classes [GlobusSessionErrorAuthorizationParameters] and
    [GlobusSessionError], their constructors, [from_dict] and [to_dict].

    Python dictionaries with string keys are finite maps ([gmap string _]):
    dictionary equality in Python ignores insertion order, and so does
    equality of finite maps.  A raised exception is the left injection of a
    sum, a returned value the right one. *)

From stdpp Require Import gmap strings list fin_maps.

Set Warnings "-register-all".
Local Open Scope string_scope.

(** ** Python values *)

(** The attributes of a [GlobusSessionErrorAuthorizationParameters] object,
    over the type [V] of the values they hold.  The constructor stores its
    six arguments without converting them, so every attribute holds an
    arbitrary value. *)
Record AuthorizationParametersOf (V : Type) : Type := MkAuthorizationParameters {
  session_message : V;
  session_required_identities : V;
  session_required_policies : V;
  session_required_single_domain : V;
  session_required_mfa : V;
  session_required_scopes : V;
  extra_fields : gmap string V
}.
Arguments MkAuthorizationParameters {V}.
Arguments session_message {V}.
Arguments session_required_identities {V}.
Arguments session_required_policies {V}.
Arguments session_required_single_domain {V}.
Arguments session_required_mfa {V}.
Arguments session_required_scopes {V}.
Arguments extra_fields {V}.

(** The values that reach the module: [None], booleans, integers, strings,
    lists, dictionaries with string keys, and authorization-parameter
    objects (which [GlobusSessionError.__init__] accepts as an argument). *)
Inductive pyval : Type :=
  | PNone
  | PBool (b : bool)
  | PInt (z : Z)
  | PStr (s : string)
  | PList (l : list pyval)
  | PDict (d : gmap string pyval)
  | PAuthParams (p : AuthorizationParametersOf pyval).

Abbreviation dict := (gmap string pyval).

(** [v is None] *)
Definition is_none (v : pyval) : bool :=
  match v with PNone => true | _ => false end.

(** [d.get(k)]: the value under [k], or [None] when the key is missing. *)
Definition dict_get (d : dict) (k : string) : pyval :=
  default PNone (d !! k).

(** [d.update(e)]: the entries of [e] are written over those of [d]. *)
Definition dict_update (d e : dict) : dict := e ∪ d.

(** [extra or {}]: [None] and the empty dictionary are both falsy. *)
Definition or_empty (extra : option dict) : dict :=
  match extra with
  | None => ∅
  | Some d => if bool_decide (size d = 0) then ∅ else d
  end.

(** The classes used as second argument of [isinstance]. *)
Inductive pytype : Type :=
  | TStr
  | TList
  | TBool
  | TDict
  | TAuthorizationParameters.

(** [cls.__name__] *)
Definition type_name (ty : pytype) : string :=
  match ty with
  | TStr => "str"
  | TList => "list"
  | TBool => "bool"
  | TDict => "dict"
  | TAuthorizationParameters => "GlobusSessionErrorAuthorizationParameters"
  end.

Definition isinstance (v : pyval) (ty : pytype) : bool :=
  match v, ty with
  | PStr _, TStr => true
  | PList _, TList => true
  | PBool _, TBool => true
  | PDict _, TDict => true
  | PAuthParams _, TAuthorizationParameters => true
  | _, _ => false
  end.

(** ** Exceptions *)

Inductive exn : Type :=
  | ValueError (msg : string)
  | AttributeError (name : string).

Definition result (A : Type) : Type := exn + A.

Definition raise {A : Type} (e : exn) : result A := inl e.
Definition ret {A : Type} (a : A) : result A := inr a.

(** Sequencing: an exception raised by the first computation is the outcome
    of the whole; [x ← m; k] is stdpp's notation for it. *)
#[global] Instance result_bind : MBind result := λ A B k m,
  match m with
  | inl e => inl e
  | inr a => k a
  end.

(** The keys of a class-level [SUPPORTED_FIELDS] table, in source order. *)
Definition keys {A : Type} (fields : list (string * A)) : list string :=
  fields.*1.

(** ** GlobusSessionErrorAuthorizationParameters *)

Module GlobusSessionErrorAuthorizationParameters.

Abbreviation t := (AuthorizationParametersOf pyval).

Definition SUPPORTED_FIELDS : list (string * pytype) :=
  [ ("session_message", TStr);
    ("session_required_identities", TList);
    ("session_required_policies", TList);
    ("session_required_single_domain", TList);
    ("session_required_mfa", TBool);
    ("session_required_scopes", TList) ].

(** [getattr(self, name)] for the six data attributes and [extra_fields];
    any other name raises [AttributeError]. *)
Definition getattr (self : t) (name : string) : result pyval :=
  if String.eqb name "session_message" then ret (session_message self)
  else if String.eqb name "session_required_identities"
    then ret (session_required_identities self)
  else if String.eqb name "session_required_policies"
    then ret (session_required_policies self)
  else if String.eqb name "session_required_single_domain"
    then ret (session_required_single_domain self)
  else if String.eqb name "session_required_mfa"
    then ret (session_required_mfa self)
  else if String.eqb name "session_required_scopes"
    then ret (session_required_scopes self)
  else if String.eqb name "extra_fields"
    then ret (PDict (extra_fields self))
  else raise (AttributeError name).

(** [any((getattr(self, n) is not None) for n in names)] *)
Fixpoint any_is_not_none (self : t) (names : list string) : result bool :=
  match names with
  | [] => ret false
  | field_name :: rest =>
      v ← getattr self field_name;
      if negb (is_none v) then ret true else any_is_not_none self rest
  end.

(** The loop that enforces the field types: the first field, in table
    order, that is set and is not an instance of its type raises. *)
Fixpoint enforce_types (self : t) (fields : list (string * pytype))
  : result unit :=
  match fields with
  | [] => ret tt
  | (field_name, field_type) :: rest =>
      field_value ← getattr self field_name;
      if negb (is_none field_value) && negb (isinstance field_value field_type)
      then raise (ValueError
             ("'" +:+ field_name +:+ "' must be of type "
                  +:+ type_name field_type))
      else enforce_types self rest
  end.

(** The message of the first [ValueError].  In the source the two adjacent
    string literals are joined by the parser before [.join] applies, so
    the whole sentence is the separator between the field names. *)
Definition no_field_message : string :=
  String.concat
    "Must include at least one supported authorization parameter: , "
    (keys SUPPORTED_FIELDS).

Definition __init__
    (session_message session_required_identities session_required_policies
     session_required_single_domain session_required_mfa
     session_required_scopes : pyval)
    (extra : option dict) : result t :=
  let self :=
    {| session_message := session_message;
       session_required_identities := session_required_identities;
       session_required_policies := session_required_policies;
       session_required_single_domain := session_required_single_domain;
       session_required_mfa := session_required_mfa;
       session_required_scopes := session_required_scopes;
       extra_fields := or_empty extra |} in
  some_set ← any_is_not_none self (keys SUPPORTED_FIELDS);
  if negb some_set then raise (ValueError no_field_message)
  else
    enforce_types self SUPPORTED_FIELDS;;
    ret self.

(** The call of the class on the unpacked [kwargs]: each parameter is
    bound to the entry of [kwargs] under its name, and to its default
    [None] when there is none. *)
Definition call_with_kwargs (kwargs : dict) : result t :=
  __init__
    (dict_get kwargs "session_message")
    (dict_get kwargs "session_required_identities")
    (dict_get kwargs "session_required_policies")
    (dict_get kwargs "session_required_single_domain")
    (dict_get kwargs "session_required_mfa")
    (dict_get kwargs "session_required_scopes")
    (match kwargs !! "extra" with
     | Some (PDict d) => Some d
     | _ => None
     end).

Definition from_dict (param_dict : dict) : result t :=
  let extras : dict :=
    filter (λ kv, kv.1 ∉ keys SUPPORTED_FIELDS) param_dict in
  let kwargs : dict :=
    foldl (λ kwargs field_name,
             <[field_name := dict_get param_dict field_name]> kwargs)
          {[ "extra" := PDict extras ]}
          (keys SUPPORTED_FIELDS) in
  call_with_kwargs kwargs.

(** The loop of [to_dict] that copies the fields that are set. *)
Fixpoint set_fields (self : t) (names : list string)
    (session_error_dict : dict) : result dict :=
  match names with
  | [] => ret session_error_dict
  | field :: rest =>
      v ← getattr self field;
      if negb (is_none v)
      then set_fields self rest (<[field := v]> session_error_dict)
      else set_fields self rest session_error_dict
  end.

Definition to_dict (self : t) (include_extra : bool) : result dict :=
  session_error_dict ← set_fields self (keys SUPPORTED_FIELDS) ∅;
  if include_extra
  then ret (dict_update session_error_dict (extra_fields self))
  else ret session_error_dict.

End GlobusSessionErrorAuthorizationParameters.

(** ** GlobusSessionError *)

Module GlobusSessionError.

Module AP := GlobusSessionErrorAuthorizationParameters.

Record t : Type := MkSessionError {
  code : pyval;
  authorization_parameters : AP.t;
  extra_fields : dict
}.

Definition SUPPORTED_FIELDS : list (string * pytype) :=
  [ ("code", TStr);
    ("authorization_parameters", TAuthorizationParameters) ].

Definition __init__ (code authorization_parameters : pyval)
    (extra : option dict) : result t :=
  if is_none code then raise (ValueError "Must have a 'code'")
  else
    let extra_fields := or_empty extra in
    match authorization_parameters with
    | PAuthParams p =>
        ret {| code := code;
               authorization_parameters := p;
               extra_fields := extra_fields |}
    | PDict param_dict =>
        p ← AP.from_dict param_dict;
        ret {| code := code;
               authorization_parameters := p;
               extra_fields := extra_fields |}
    | _ => raise (ValueError "Must have 'authorization_parameters'")
    end.

(** The call of the class on the unpacked [kwargs].  The three parameters
    have no default; [from_dict] always supplies the three keys. *)
Definition call_with_kwargs (kwargs : dict) : result t :=
  __init__
    (dict_get kwargs "code")
    (dict_get kwargs "authorization_parameters")
    (match kwargs !! "extra" with
     | Some (PDict d) => Some d
     | _ => None
     end).

Definition from_dict (error_dict : dict) : result t :=
  let extras : dict :=
    filter (λ kv, kv.1 ∉ keys SUPPORTED_FIELDS) error_dict in
  let kwargs : dict :=
    foldl (λ kwargs field_name,
             <[field_name := dict_get error_dict field_name]> kwargs)
          {[ "extra" := PDict extras ]}
          (keys SUPPORTED_FIELDS) in
  call_with_kwargs kwargs.

Definition to_dict (self : t) (include_extra : bool) : result dict :=
  inner ← AP.to_dict (authorization_parameters self) include_extra;
  let session_error_dict : dict :=
    <[ "authorization_parameters" := PDict inner ]>
      {[ "code" := code self ]} in
  if include_extra
  then ret (dict_update session_error_dict (extra_fields self))
  else ret session_error_dict.

End GlobusSessionError.

Module AP := GlobusSessionErrorAuthorizationParameters.
Module SE := GlobusSessionError.

(** * Properties *)

(** Membership of a literal name in the keys of a literal table. *)
Ltac in_keys := apply list_elem_of_In; simpl; auto 10.

(** A closed equation whose left side evaluates to its right side. *)
Ltac by_evaluation :=
  lazymatch goal with
  | |- _ = ?rhs => vm_cast_no_check (eq_refl rhs)
  end.

(** ** Basic facts about the value model *)

Lemma is_none_true (v : pyval) : is_none v = true ↔ v = PNone.
Proof. destruct v; simpl; split; congruence. Qed.

Lemma is_none_false (v : pyval) : is_none v = false ↔ v ≠ PNone.
Proof. destruct v; simpl; split; congruence. Qed.

Lemma or_empty_Some (d : dict) : or_empty (Some d) = d.
Proof.
  unfold or_empty. case_bool_decide as Hsize; [|done].
  symmetry. by apply map_size_empty_inv.
Qed.

Lemma or_empty_default (extra : option dict) : or_empty extra = default ∅ extra.
Proof. destruct extra as [d|]; [apply or_empty_Some | done]. Qed.

Lemma dict_get_insert_eq (d : dict) (k : string) (v : pyval) :
  dict_get (<[k := v]> d) k = v.
Proof. unfold dict_get. by rewrite lookup_insert_eq. Qed.

Lemma dict_get_insert_ne (d : dict) (k k' : string) (v : pyval) :
  k ≠ k' → dict_get (<[k := v]> d) k' = dict_get d k'.
Proof. intros Hne. unfold dict_get. by rewrite lookup_insert_ne. Qed.

Lemma dict_get_is_none (d : dict) (k : string) :
  is_none (dict_get d k) = true ↔ d !! k = None ∨ d !! k = Some PNone.
Proof.
  unfold dict_get. destruct (d !! k) as [v|]; simpl.
  - rewrite is_none_true. split; [intros ->; by right | intros [?|?]; congruence].
  - split; [by left | done].
Qed.

(** A field is ill-typed when it is set and is not an instance of the type
    the table declares for it. *)
Definition ill_typed (v : pyval) (ty : pytype) : bool :=
  negb (is_none v) && negb (isinstance v ty).

Lemma ill_typed_true (v : pyval) (ty : pytype) :
  ill_typed v ty = true ↔ v ≠ PNone ∧ isinstance v ty = false.
Proof.
  unfold ill_typed. rewrite andb_true_iff, !negb_true_iff, is_none_false. done.
Qed.

Lemma ill_typed_false (v : pyval) (ty : pytype) :
  ill_typed v ty = false ↔ v = PNone ∨ isinstance v ty = true.
Proof.
  unfold ill_typed. rewrite andb_false_iff, !negb_false_iff, is_none_true. done.
Qed.

(** ** The constructor of the authorization parameters, as a decision list *)

Lemma AP_init_cases (sm sri srp srsd mfa srs : pyval) (extra : option dict) :
  AP.__init__ sm sri srp srsd mfa srs extra =
    if forallb is_none [sm; sri; srp; srsd; mfa; srs]
    then inl (ValueError AP.no_field_message)
    else if ill_typed sm TStr
      then inl (ValueError "'session_message' must be of type str")
    else if ill_typed sri TList
      then inl (ValueError "'session_required_identities' must be of type list")
    else if ill_typed srp TList
      then inl (ValueError "'session_required_policies' must be of type list")
    else if ill_typed srsd TList
      then inl (ValueError "'session_required_single_domain' must be of type list")
    else if ill_typed mfa TBool
      then inl (ValueError "'session_required_mfa' must be of type bool")
    else if ill_typed srs TList
      then inl (ValueError "'session_required_scopes' must be of type list")
    else inr (MkAuthorizationParameters sm sri srp srsd mfa srs (or_empty extra)).
Proof.
  unfold AP.__init__, ill_typed. cbn -[AP.no_field_message or_empty].
  destruct (is_none sm), (is_none sri), (is_none srp), (is_none srsd),
    (is_none mfa), (is_none srs); cbn -[AP.no_field_message or_empty];
    try reflexivity;
    repeat (match goal with
            | |- context [isinstance ?v ?ty] => destruct (isinstance v ty)
            end; cbn -[AP.no_field_message or_empty]; try reflexivity).
Qed.

(** The two conditions under which the constructor is said to fail. *)
Definition all_fields_null (sm sri srp srsd mfa srs : pyval) : Prop :=
  sm = PNone ∧ sri = PNone ∧ srp = PNone ∧ srsd = PNone
  ∧ mfa = PNone ∧ srs = PNone.

Definition some_field_ill_typed (sm sri srp srsd mfa srs : pyval) : Prop :=
  (sm ≠ PNone ∧ isinstance sm TStr = false)
  ∨ (sri ≠ PNone ∧ isinstance sri TList = false)
  ∨ (srp ≠ PNone ∧ isinstance srp TList = false)
  ∨ (srsd ≠ PNone ∧ isinstance srsd TList = false)
  ∨ (mfa ≠ PNone ∧ isinstance mfa TBool = false)
  ∨ (srs ≠ PNone ∧ isinstance srs TList = false).

Lemma forallb_is_none_true (sm sri srp srsd mfa srs : pyval) :
  forallb is_none [sm; sri; srp; srsd; mfa; srs] = true
  ↔ all_fields_null sm sri srp srsd mfa srs.
Proof.
  unfold all_fields_null. simpl.
  rewrite !andb_true_iff, !is_none_true. tauto.
Qed.

(** The same two conditions as one boolean test. *)
Definition init_fails (sm sri srp srsd mfa srs : pyval) : bool :=
  forallb is_none [sm; sri; srp; srsd; mfa; srs]
  || ill_typed sm TStr || ill_typed sri TList || ill_typed srp TList
  || ill_typed srsd TList || ill_typed mfa TBool || ill_typed srs TList.

Lemma init_fails_true (sm sri srp srsd mfa srs : pyval) :
  init_fails sm sri srp srsd mfa srs = true
  ↔ all_fields_null sm sri srp srsd mfa srs
    ∨ some_field_ill_typed sm sri srp srsd mfa srs.
Proof.
  unfold init_fails, some_field_ill_typed.
  rewrite !orb_true_iff, forallb_is_none_true, !ill_typed_true. tauto.
Qed.

Lemma AP_init_by_test (sm sri srp srsd mfa srs : pyval) (extra : option dict) :
  if init_fails sm sri srp srsd mfa srs
  then ∃ msg, AP.__init__ sm sri srp srsd mfa srs extra = inl (ValueError msg)
  else AP.__init__ sm sri srp srsd mfa srs extra
       = inr (MkAuthorizationParameters sm sri srp srsd mfa srs
                (default ∅ extra)).
Proof.
  rewrite AP_init_cases, or_empty_default. unfold init_fails.
  destruct (forallb is_none _); simpl; [eauto|].
  destruct (ill_typed sm TStr); simpl; [eauto|].
  destruct (ill_typed sri TList); simpl; [eauto|].
  destruct (ill_typed srp TList); simpl; [eauto|].
  destruct (ill_typed srsd TList); simpl; [eauto|].
  destruct (ill_typed mfa TBool); simpl; [eauto|].
  destruct (ill_typed srs TList); simpl; [eauto|].
  reflexivity.
Qed.

Lemma AP_init_inl (sm sri srp srsd mfa srs : pyval) (extra : option dict)
    (e : exn) :
  AP.__init__ sm sri srp srsd mfa srs extra = inl e → ∃ msg, e = ValueError msg.
Proof.
  pose proof (AP_init_by_test sm sri srp srsd mfa srs extra) as Hinit.
  destruct (init_fails sm sri srp srsd mfa srs).
  - destruct Hinit as [msg ->]. intros [= <-]. eauto.
  - rewrite Hinit. discriminate.
Qed.

(** C2: constructing authorization parameters from explicit fields fails
    with a [ValueError] exactly when all six recognized fields are [None]
    or some field that is set is not an instance of its declared type
    ([str] for the message, [bool] for the MFA flag, [list] for the four
    others); in every other case it returns the object that holds the six
    arguments as they were given, with [extra_fields] the given mapping,
    or the empty mapping when none was given.  No other exception is
    raised. *)
Theorem C2_init_fails_iff_null_or_ill_typed
    (sm sri srp srsd mfa srs : pyval) (extra : option dict) :
  ((∃ msg, AP.__init__ sm sri srp srsd mfa srs extra = inl (ValueError msg))
     ↔ all_fields_null sm sri srp srsd mfa srs
       ∨ some_field_ill_typed sm sri srp srsd mfa srs)
  ∧ (AP.__init__ sm sri srp srsd mfa srs extra
       = inr (MkAuthorizationParameters sm sri srp srsd mfa srs
                (default ∅ extra))
     ↔ ¬ (all_fields_null sm sri srp srsd mfa srs
          ∨ some_field_ill_typed sm sri srp srsd mfa srs))
  ∧ (∀ e, AP.__init__ sm sri srp srsd mfa srs extra = inl e →
          ∃ msg, e = ValueError msg).
Proof.
  pose proof (AP_init_by_test sm sri srp srsd mfa srs extra) as Hinit.
  rewrite <- init_fails_true.
  destruct (init_fails sm sri srp srsd mfa srs).
  - destruct Hinit as [msg ->]. split_and!.
    + split; eauto.
    + split; [discriminate | intros []; reflexivity].
    + intros e [= <-]. eauto.
  - rewrite Hinit. split_and!.
    + split; [intros [msg [=]] | discriminate].
    + split; [discriminate | reflexivity].
    + intros e [=].
Qed.

(** The example of a wrong type: the text ["yes"] for the MFA flag. *)
Example init_mfa_text_fails :
  AP.__init__ PNone PNone PNone PNone (PStr "yes") PNone None
  = inl (ValueError "'session_required_mfa' must be of type bool").
Proof. reflexivity. Qed.

(** ** [from_dict]: the partition of the input mapping *)

(** The entries of a mapping whose key is not in a [SUPPORTED_FIELDS]
    table: the dictionary comprehension that opens both [from_dict]s. *)
Definition extras_of (fields : list (string * pytype)) (d : dict) : dict :=
  filter (λ kv, kv.1 ∉ keys fields) d.

Lemma extras_of_lookup (fields : list (string * pytype)) (d : dict) (k : string) :
  extras_of fields d !! k = if decide (k ∈ keys fields) then None else d !! k.
Proof.
  unfold extras_of. case_decide as Hk.
  - apply map_lookup_filter_None. right. intros v _. simpl. tauto.
  - destruct (d !! k) as [v|] eqn:Hd.
    + apply map_lookup_filter_Some. done.
    + apply map_lookup_filter_None. by left.
Qed.

Lemma extras_of_supported (fields : list (string * pytype)) (d : dict) (k : string) :
  k ∈ keys fields → extras_of fields d !! k = None.
Proof. intros Hk. rewrite extras_of_lookup. by rewrite decide_True. Qed.

Lemma extras_of_other (fields : list (string * pytype)) (d : dict) (k : string) :
  k ∉ keys fields → extras_of fields d !! k = d !! k.
Proof. intros Hk. rewrite extras_of_lookup. by rewrite decide_False. Qed.

(** [from_dict] reads each recognized field with [get] and hands the six
    values, with the remaining entries as [extra], to the constructor. *)
Lemma AP_from_dict_unfold (param_dict : dict) :
  AP.from_dict param_dict =
    AP.__init__
      (dict_get param_dict "session_message")
      (dict_get param_dict "session_required_identities")
      (dict_get param_dict "session_required_policies")
      (dict_get param_dict "session_required_single_domain")
      (dict_get param_dict "session_required_mfa")
      (dict_get param_dict "session_required_scopes")
      (Some (extras_of AP.SUPPORTED_FIELDS param_dict)).
Proof.
  unfold AP.from_dict, AP.call_with_kwargs. simpl foldl.
  repeat (rewrite ?dict_get_insert_eq; rewrite ?dict_get_insert_ne by done).
  rewrite !lookup_insert_ne by done. rewrite lookup_singleton_eq.
  reflexivity.
Qed.

Lemma SE_from_dict_unfold (error_dict : dict) :
  SE.from_dict error_dict =
    SE.__init__
      (dict_get error_dict "code")
      (dict_get error_dict "authorization_parameters")
      (Some (extras_of SE.SUPPORTED_FIELDS error_dict)).
Proof.
  unfold SE.from_dict, SE.call_with_kwargs. simpl foldl.
  repeat (rewrite ?dict_get_insert_eq; rewrite ?dict_get_insert_ne by done).
  rewrite !lookup_insert_ne by done. rewrite lookup_singleton_eq.
  reflexivity.
Qed.

(** ** [to_dict]: the entries of the output *)

(** What [to_dict] writes for an attribute name: the value of the
    attribute, unless it is [None]. *)
Definition set_value (self : AP.t) (name : string) : option pyval :=
  match AP.getattr self name with
  | inr v => if is_none v then None else Some v
  | inl _ => None
  end.

(** The entry of the output of [to_dict] under a key when extras are left
    out: recognized fields that are set, and nothing else. *)
Definition field_entry (self : AP.t) (k : string) : option pyval :=
  if decide (k ∈ keys AP.SUPPORTED_FIELDS) then set_value self k else None.

Lemma AP_getattr_supported (self : AP.t) (name : string) :
  name ∈ keys AP.SUPPORTED_FIELDS → ∃ v, AP.getattr self name = inr v.
Proof.
  simpl. rewrite !elem_of_cons, elem_of_nil.
  intros H; destruct_or!; try done; subst; eauto.
Qed.

Lemma set_fields_lookup (self : AP.t) (names : list string) (acc : dict) :
  (∀ n, n ∈ names → ∃ v, AP.getattr self n = inr v) →
  ∃ d, AP.set_fields self names acc = inr d
       ∧ ∀ k, d !! k =
              match (if decide (k ∈ names) then set_value self k else None) with
              | Some v => Some v
              | None => acc !! k
              end.
Proof.
  revert acc. induction names as [|n names IH]; intros acc Hget.
  - exists acc. split; [done|]. intros k. by rewrite decide_False by apply not_elem_of_nil.
  - destruct (Hget n) as [v Hv]; [by left|].
    assert (∀ n', n' ∈ names → ∃ v', AP.getattr self n' = inr v') as Hget'.
    { intros n' Hn'. apply Hget. by right. }
    simpl. rewrite Hv. simpl.
    destruct (is_none v) eqn:Hnone; simpl.
    + destruct (IH acc Hget') as (d & -> & Hd). exists d. split; [done|].
      intros k. rewrite Hd.
      destruct (decide (k = n)) as [->|Hne].
      * rewrite (decide_True (P := n ∈ n :: names)) by by left.
        unfold set_value. rewrite Hv, Hnone. by case_decide.
      * destruct (decide (k ∈ names)) as [Hin|Hnin].
        -- by rewrite (decide_True (P := k ∈ n :: names)) by by right.
        -- rewrite (decide_False (P := k ∈ n :: names)); [done|].
           rewrite elem_of_cons. tauto.
    + destruct (IH (<[n := v]> acc) Hget') as (d & -> & Hd). exists d.
      split; [done|]. intros k. rewrite Hd.
      destruct (decide (k = n)) as [->|Hne].
      * rewrite (decide_True (P := n ∈ n :: names)) by by left.
        unfold set_value. rewrite Hv, Hnone, lookup_insert_eq.
        by case_decide.
      * rewrite lookup_insert_ne by done.
        destruct (decide (k ∈ names)) as [Hin|Hnin].
        -- by rewrite (decide_True (P := k ∈ n :: names)) by by right.
        -- rewrite (decide_False (P := k ∈ n :: names)); [done|].
           rewrite elem_of_cons. tauto.
Qed.

(** [to_dict] always returns, and its output is determined entry by entry:
    without extras it holds the fields that are set; with extras, the
    extra entries first and the fields that are set under the other keys. *)
Lemma AP_to_dict_lookup (self : AP.t) (include_extra : bool) :
  ∃ d, AP.to_dict self include_extra = inr d
       ∧ ∀ k, d !! k =
              if include_extra
              then match extra_fields self !! k with
                   | Some v => Some v
                   | None => field_entry self k
                   end
              else field_entry self k.
Proof.
  unfold AP.to_dict.
  destruct (set_fields_lookup self (keys AP.SUPPORTED_FIELDS) ∅)
    as (d & -> & Hd); [apply AP_getattr_supported|].
  assert (∀ k, d !! k = field_entry self k) as Hd'.
  { intros k. rewrite Hd. unfold field_entry.
    case_decide; [|done]. by destruct (set_value self k). }
  simpl. destruct include_extra; eexists; (split; [reflexivity|]); [|done].
  intros k. unfold dict_update. rewrite lookup_union, Hd'.
  destruct (extra_fields self !! k), (field_entry self k); done.
Qed.

(** ** Objects built by [from_dict] *)

Lemma AP_init_inr (sm sri srp srsd mfa srs : pyval) (extra : option dict)
    (x : AP.t) :
  AP.__init__ sm sri srp srsd mfa srs extra = inr x →
  x = MkAuthorizationParameters sm sri srp srsd mfa srs (default ∅ extra).
Proof.
  pose proof (AP_init_by_test sm sri srp srsd mfa srs extra) as Hinit.
  destruct (init_fails sm sri srp srsd mfa srs).
  - destruct Hinit as [msg ->]. discriminate.
  - rewrite Hinit. by intros [= <-].
Qed.

(** The object that [from_dict] returns, when it returns one. *)
Definition parsed (param_dict : dict) : AP.t :=
  MkAuthorizationParameters
    (dict_get param_dict "session_message")
    (dict_get param_dict "session_required_identities")
    (dict_get param_dict "session_required_policies")
    (dict_get param_dict "session_required_single_domain")
    (dict_get param_dict "session_required_mfa")
    (dict_get param_dict "session_required_scopes")
    (extras_of AP.SUPPORTED_FIELDS param_dict).

Lemma AP_from_dict_inr (param_dict : dict) (x : AP.t) :
  AP.from_dict param_dict = inr x → x = parsed param_dict.
Proof. rewrite AP_from_dict_unfold. apply AP_init_inr. Qed.

Lemma parsed_getattr (param_dict : dict) (name : string) :
  name ∈ keys AP.SUPPORTED_FIELDS →
  AP.getattr (parsed param_dict) name = inr (dict_get param_dict name).
Proof.
  simpl. rewrite !elem_of_cons, elem_of_nil.
  intros H; destruct_or!; try done; subst; reflexivity.
Qed.

Lemma parsed_field_entry (param_dict : dict) (name : string) :
  name ∈ keys AP.SUPPORTED_FIELDS →
  field_entry (parsed param_dict) name =
    if is_none (dict_get param_dict name) then None
    else Some (dict_get param_dict name).
Proof.
  intros Hname. unfold field_entry, set_value.
  rewrite decide_True by done. by rewrite parsed_getattr.
Qed.

(** Reading back a recognized key from the serialized form of a parsed
    object gives what [get] gave on the original mapping. *)
Lemma dict_get_to_dict_parsed (param_dict d : dict) (name : string) :
  name ∈ keys AP.SUPPORTED_FIELDS →
  AP.to_dict (parsed param_dict) true = inr d →
  dict_get d name = dict_get param_dict name.
Proof.
  intros Hname Hd.
  destruct (AP_to_dict_lookup (parsed param_dict) true) as (d' & Hd' & Hlook).
  rewrite Hd in Hd'. injection Hd' as <-.
  unfold dict_get at 1. rewrite Hlook. simpl extra_fields.
  rewrite extras_of_supported, parsed_field_entry by done.
  destruct (is_none (dict_get param_dict name)) eqn:Hnone; simpl; [|done].
  symmetry. by apply is_none_true.
Qed.

Lemma extras_of_to_dict_parsed (param_dict d : dict) :
  AP.to_dict (parsed param_dict) true = inr d →
  extras_of AP.SUPPORTED_FIELDS d = extras_of AP.SUPPORTED_FIELDS param_dict.
Proof.
  intros Hd.
  destruct (AP_to_dict_lookup (parsed param_dict) true) as (d' & Hd' & Hlook).
  rewrite Hd in Hd'. injection Hd' as <-.
  apply map_eq. intros k. rewrite !extras_of_lookup.
  case_decide as Hk; [done|].
  rewrite Hlook. simpl extra_fields. rewrite extras_of_other by done.
  unfold field_entry. rewrite decide_False by done.
  by destruct (param_dict !! k).
Qed.

(** The six values that [from_dict] reads are acceptable to the
    constructor: one of them at least is set, and those that are set have
    their declared types. *)
Definition valid_params (param_dict : dict) : Prop :=
  ¬ (all_fields_null
       (dict_get param_dict "session_message")
       (dict_get param_dict "session_required_identities")
       (dict_get param_dict "session_required_policies")
       (dict_get param_dict "session_required_single_domain")
       (dict_get param_dict "session_required_mfa")
       (dict_get param_dict "session_required_scopes")
     ∨ some_field_ill_typed
         (dict_get param_dict "session_message")
         (dict_get param_dict "session_required_identities")
         (dict_get param_dict "session_required_policies")
         (dict_get param_dict "session_required_single_domain")
         (dict_get param_dict "session_required_mfa")
         (dict_get param_dict "session_required_scopes")).

Lemma AP_from_dict_valid (param_dict : dict) :
  valid_params param_dict → AP.from_dict param_dict = inr (parsed param_dict).
Proof.
  unfold valid_params. rewrite <- init_fails_true. intros Hvalid.
  rewrite AP_from_dict_unfold.
  pose proof (AP_init_by_test
                (dict_get param_dict "session_message")
                (dict_get param_dict "session_required_identities")
                (dict_get param_dict "session_required_policies")
                (dict_get param_dict "session_required_single_domain")
                (dict_get param_dict "session_required_mfa")
                (dict_get param_dict "session_required_scopes")
                (Some (extras_of AP.SUPPORTED_FIELDS param_dict))) as Hinit.
  destruct (init_fails _ _ _ _ _ _); [done | exact Hinit].
Qed.

Lemma AP_roundtrip_parsed (param_dict : dict) :
  AP.from_dict param_dict = inr (parsed param_dict) →
  ∃ d, AP.to_dict (parsed param_dict) true = inr d
       ∧ AP.from_dict d = inr (parsed param_dict).
Proof.
  intros Hx.
  destruct (AP_to_dict_lookup (parsed param_dict) true) as (d & Hd & _).
  exists d. split; [done|].
  rewrite AP_from_dict_unfold.
  rewrite !(dict_get_to_dict_parsed param_dict d) by (assumption || in_keys).
  rewrite (extras_of_to_dict_parsed param_dict d) by done.
  by rewrite <- AP_from_dict_unfold.
Qed.

(** C1: an authorization-parameters object [x] that [from_dict] built from
    a mapping serializes, with its extra fields included, to a mapping from
    which [from_dict] builds [x] again: the second parse succeeds and gives
    the same six field values and the same [extra_fields].  Such an [x]
    exists for every mapping with at least one recognized field set and
    every recognized field that is set of its declared type. *)
Theorem C1_from_dict_to_dict_roundtrip :
  (∀ (param_dict : dict) (x : AP.t),
     AP.from_dict param_dict = inr x →
     ∃ d, AP.to_dict x true = inr d ∧ AP.from_dict d = inr x)
  ∧ (∀ param_dict : dict,
       valid_params param_dict →
       ∃ x d, AP.from_dict param_dict = inr x
              ∧ AP.to_dict x true = inr d
              ∧ AP.from_dict d = inr x).
Proof.
  split.
  - intros param_dict x Hx.
    pose proof (AP_from_dict_inr _ _ Hx) as ->.
    by apply AP_roundtrip_parsed.
  - intros param_dict Hx%AP_from_dict_valid.
    destruct (AP_roundtrip_parsed param_dict Hx) as (d & Hd & Hback).
    by exists (parsed param_dict), d.
Qed.

Definition sample_params : dict :=
  <[ "session_message" := PStr "m" ]> {[ "custom_key" := PInt 1 ]}.

Lemma C1_roundtrip_witness :
  ∃ x, AP.from_dict sample_params = inr x
       ∧ ∃ d, AP.to_dict x true = inr d ∧ AP.from_dict d = inr x.
Proof.
  exists (parsed sample_params). split; [by_evaluation|].
  apply (proj1 C1_from_dict_to_dict_roundtrip sample_params).
  by_evaluation.
Defined.

(** ** Serialization of authorization parameters *)

(** C3, counterexample: the claim that the output of [to_dict] never has
    an entry under the name of a recognized field whose stored value is [None] fails for an
    object constructed directly with an [extra] mapping that uses such a
    name: with [include_extra] the extra entry appears under it. *)
Lemma C3_null_field_present_counterexample :
  ¬ (∀ (sm sri srp srsd mfa srs : pyval) (extra : option dict)
       (self : AP.t) (include_extra : bool) (d : dict) (name : string),
       AP.__init__ sm sri srp srsd mfa srs extra = inr self →
       AP.to_dict self include_extra = inr d →
       name ∈ keys AP.SUPPORTED_FIELDS →
       AP.getattr self name = inr PNone →
       d !! name = None).
Proof.
  intros Hclaim.
  specialize (Hclaim PNone PNone PNone PNone (PBool true) PNone
                (Some {[ "session_message" := PInt 1 ]})
                (MkAuthorizationParameters PNone PNone PNone PNone
                   (PBool true) PNone {[ "session_message" := PInt 1 ]})
                true
                (<[ "session_message" := PInt 1 ]>
                   {[ "session_required_mfa" := PBool true ]})
                "session_message").
  rewrite lookup_insert_eq in Hclaim.
  discriminate Hclaim; [by_evaluation | by_evaluation | in_keys | reflexivity].
Qed.

(** C3 (amended): for every successfully constructed authorization
    parameters object and either value of [include_extra], [to_dict]
    returns a mapping in which, for each recognized field whose name is
    not overwritten by an extra entry (that is, when [include_extra] is
    false or [extra_fields] has no entry under that name), the field
    appears under its name with its stored value when that value is not
    [None] and does not appear when it is [None]; the mapping contains
    every stored extra entry when [include_extra] is true, and has no
    entry outside the recognized names when it is false.  The object built
    by [from_dict] from [{"session_message": "m", "custom_key": 1}]
    serializes to [{"session_message": "m"}] without extras and to the
    original mapping with them. *)
Theorem C3_to_dict_contents :
  (∀ (sm sri srp srsd mfa srs : pyval) (extra : option dict)
     (self : AP.t) (include_extra : bool),
     AP.__init__ sm sri srp srsd mfa srs extra = inr self →
     ∃ d, AP.to_dict self include_extra = inr d
          ∧ (∀ name v,
               name ∈ keys AP.SUPPORTED_FIELDS →
               AP.getattr self name = inr v →
               include_extra = false ∨ extra_fields self !! name = None →
               (v ≠ PNone → d !! name = Some v)
               ∧ (v = PNone → d !! name = None))
          ∧ (include_extra = true →
             ∀ k v, extra_fields self !! k = Some v → d !! k = Some v)
          ∧ (include_extra = false →
             ∀ k, k ∉ keys AP.SUPPORTED_FIELDS → d !! k = None))
  ∧ (∃ x, AP.from_dict sample_params = inr x
          ∧ AP.to_dict x false = inr {[ "session_message" := PStr "m" ]}
          ∧ AP.to_dict x true = inr sample_params).
Proof.
  split.
  - intros sm sri srp srsd mfa srs extra self include_extra _.
    destruct (AP_to_dict_lookup self include_extra) as (d & Hd & Hlook).
    exists d. split; [done|]. split_and!.
    + intros name v Hname Hv Hfree.
      assert (d !! name = field_entry self name) as ->.
      { rewrite Hlook. destruct Hfree as [-> | ->]; by try destruct include_extra. }
      unfold field_entry, set_value. rewrite decide_True, Hv by done.
      split; [intros ?%is_none_false | intros ?%is_none_true];
        by destruct (is_none v).
    + intros -> k v Hk. by rewrite Hlook, Hk.
    + intros -> k Hk. rewrite Hlook. unfold field_entry. by rewrite decide_False.
  - exists (parsed sample_params). split_and!; by_evaluation.
Qed.

Lemma C3_to_dict_contents_witness :
  ∃ d, AP.to_dict (MkAuthorizationParameters PNone PNone PNone PNone
                     (PBool true) PNone {[ "session_message" := PInt 1 ]})
         false = inr d
       ∧ d !! "session_required_mfa" = Some (PBool true)
       ∧ d !! "session_message" = None.
Proof.
  destruct (proj1 C3_to_dict_contents
              PNone PNone PNone PNone (PBool true) PNone
              (Some {[ "session_message" := PInt 1 ]})
              (MkAuthorizationParameters PNone PNone PNone PNone
                 (PBool true) PNone {[ "session_message" := PInt 1 ]})
              false) as (d & Hd & Hfields & _ & _);
    [by_evaluation|].
  exists d. split; [exact Hd|]. split.
  - apply (Hfields "session_required_mfa" (PBool true));
      [in_keys | reflexivity | by left | discriminate].
  - apply (Hfields "session_message" PNone);
      [in_keys | reflexivity | by left | reflexivity].
Defined.

(** ** Parsing authorization parameters *)

(** C6: [from_dict] splits its input into the six recognized values, each
    read under exactly its key and [None] when the key is missing, and the
    remaining entries, which become [extra]; it then calls the constructor
    on them.  So every entry of the input is either under a recognized key
    or among the extras, an object that is returned holds exactly these
    parts, a failure is a [ValueError] and returns no object, and a mapping
    in which every recognized key is missing or mapped to [None] fails. *)
Theorem C6_from_dict_partitions_and_delegates (param_dict : dict) :
  (∀ k, extras_of AP.SUPPORTED_FIELDS param_dict !! k
        = if decide (k ∈ keys AP.SUPPORTED_FIELDS) then None
          else param_dict !! k)
  ∧ AP.from_dict param_dict
    = AP.__init__
        (dict_get param_dict "session_message")
        (dict_get param_dict "session_required_identities")
        (dict_get param_dict "session_required_policies")
        (dict_get param_dict "session_required_single_domain")
        (dict_get param_dict "session_required_mfa")
        (dict_get param_dict "session_required_scopes")
        (Some (extras_of AP.SUPPORTED_FIELDS param_dict))
  ∧ (∀ x, AP.from_dict param_dict = inr x →
          x = MkAuthorizationParameters
                (dict_get param_dict "session_message")
                (dict_get param_dict "session_required_identities")
                (dict_get param_dict "session_required_policies")
                (dict_get param_dict "session_required_single_domain")
                (dict_get param_dict "session_required_mfa")
                (dict_get param_dict "session_required_scopes")
                (extras_of AP.SUPPORTED_FIELDS param_dict))
  ∧ (∀ e, AP.from_dict param_dict = inl e →
          (∃ msg, e = ValueError msg)
          ∧ ∀ x, AP.from_dict param_dict ≠ inr x)
  ∧ ((∀ name, name ∈ keys AP.SUPPORTED_FIELDS →
              param_dict !! name = None ∨ param_dict !! name = Some PNone) →
     AP.from_dict param_dict = inl (ValueError AP.no_field_message)).
Proof.
  split_and!.
  - apply extras_of_lookup.
  - apply AP_from_dict_unfold.
  - apply AP_from_dict_inr.
  - intros e He. split; [|intros x; congruence].
    rewrite AP_from_dict_unfold in He. by eapply AP_init_inl.
  - intros Hnull. rewrite AP_from_dict_unfold, AP_init_cases.
    assert (∀ name, name ∈ keys AP.SUPPORTED_FIELDS →
                    is_none (dict_get param_dict name) = true) as Hnone.
    { intros name Hname. apply dict_get_is_none. by apply Hnull. }
    simpl forallb. rewrite !Hnone by in_keys. reflexivity.
Qed.

(** C8, counterexample: the claim that [from_dict] builds an object from
    the empty mapping fails: no object is returned. *)
Lemma C8_empty_mapping_counterexample :
  ¬ ∃ x, AP.from_dict ∅ = inr x
         ∧ extra_fields x = ∅
         ∧ ∀ name, name ∈ keys AP.SUPPORTED_FIELDS →
                   AP.getattr x name = inr PNone.
Proof.
  intros (x & Hx & _).
  assert (AP.from_dict ∅ = inl (ValueError AP.no_field_message)) as Hfail
    by by_evaluation.
  congruence.
Qed.

(** C8 (amended): passing the empty mapping to [from_dict] fails with the
    [ValueError] of the constructor's check that at least one recognized
    field is set; no object is built. *)
Theorem C8_from_dict_empty_fails :
  AP.from_dict ∅ = inl (ValueError AP.no_field_message)
  ∧ ∀ x, AP.from_dict ∅ ≠ inr x.
Proof.
  assert (AP.from_dict ∅ = inl (ValueError AP.no_field_message)) as Hfail
    by by_evaluation.
  split; [exact Hfail | intros x; congruence].
Qed.

(** ** The constructor of session errors *)

(** C4: a session error whose [code] is [None] is never constructed: the
    constructor raises a [ValueError] whatever the authorization parameters
    and the extra mapping are, valid or not. *)
Theorem C4_init_null_code_fails (authorization_parameters : pyval)
    (extra : option dict) :
  SE.__init__ PNone authorization_parameters extra
  = inl (ValueError "Must have a 'code'").
Proof. reflexivity. Qed.

(** C5: with a [code] that is not [None], the constructor of session
    errors stores an authorization-parameters object as it is, parses a
    dictionary with [from_dict] of the authorization parameters (an
    exception of that call is the outcome of the constructor), and raises
    a [ValueError] for [None] and for a value of any other type. *)
Theorem C5_init_authorization_parameters_cases (code : pyval)
    (extra : option dict) :
  code ≠ PNone →
  (∀ p, SE.__init__ code (PAuthParams p) extra
        = inr (SE.MkSessionError code p (default ∅ extra)))
  ∧ (∀ param_dict e,
       AP.from_dict param_dict = inl e →
       SE.__init__ code (PDict param_dict) extra = inl e)
  ∧ (∀ param_dict p,
       AP.from_dict param_dict = inr p →
       SE.__init__ code (PDict param_dict) extra
       = inr (SE.MkSessionError code p (default ∅ extra)))
  ∧ (∀ v,
       isinstance v TAuthorizationParameters = false →
       isinstance v TDict = false →
       SE.__init__ code v extra
       = inl (ValueError "Must have 'authorization_parameters'"))
  ∧ SE.__init__ code PNone extra
    = inl (ValueError "Must have 'authorization_parameters'").
Proof.
  intros Hcode%is_none_false. unfold SE.__init__. rewrite Hcode.
  rewrite or_empty_default. split_and!.
  - done.
  - by intros param_dict e ->.
  - by intros param_dict p ->.
  - by intros [] ? ?.
  - done.
Qed.

Lemma C5_init_cases_witness :
  SE.__init__ (PStr "c") (PAuthParams (parsed sample_params)) None
  = inr (SE.MkSessionError (PStr "c") (parsed sample_params) ∅).
Proof.
  apply (C5_init_authorization_parameters_cases (PStr "c") None).
  discriminate.
Defined.

(** ** Serialization of session errors *)

(** The dictionary literal that [to_dict] of a session error starts from. *)
Definition base_dict (self : SE.t) (inner : dict) : dict :=
  <[ "authorization_parameters" := PDict inner ]> {[ "code" := SE.code self ]}.

Lemma SE_to_dict_lookup (self : SE.t) (include_extra : bool) :
  ∃ inner d,
    AP.to_dict (SE.authorization_parameters self) include_extra = inr inner
    ∧ SE.to_dict self include_extra = inr d
    ∧ ∀ k, d !! k =
           if include_extra
           then match SE.extra_fields self !! k with
                | Some v => Some v
                | None => base_dict self inner !! k
                end
           else base_dict self inner !! k.
Proof.
  destruct (AP_to_dict_lookup (SE.authorization_parameters self) include_extra)
    as (inner & Hinner & _).
  exists inner. unfold SE.to_dict. rewrite Hinner. simpl.
  destruct include_extra; eexists; (split; [reflexivity|]);
    (split; [reflexivity|]); intros k; [|done].
  unfold dict_update. rewrite lookup_union.
  fold (base_dict self inner).
  destruct (SE.extra_fields self !! k), (base_dict self inner !! k); done.
Qed.

Definition sample_error : dict :=
  <[ "code" := PStr "c" ]>
    (<[ "authorization_parameters" :=
          PDict {[ "session_required_mfa" := PBool true ]} ]>
       {[ "extra_x" := PInt 5 ]}).

(** C7, counterexample: the claim that the entry of the output under
    [authorization_parameters] is, for every constructed session error, the
    authorization parameters serialized by their own [to_dict] fails for a
    session error constructed directly with an [extra] mapping that has
    that key: with [include_extra] the extra value is the entry. *)
Lemma C7_authorization_parameters_overwritten_counterexample :
  ¬ (∀ (code authorization_parameters : pyval) (extra : option dict)
       (self : SE.t) (include_extra : bool) (inner d : dict),
       SE.__init__ code authorization_parameters extra = inr self →
       AP.to_dict (SE.authorization_parameters self) include_extra
       = inr inner →
       SE.to_dict self include_extra = inr d →
       d !! "authorization_parameters" = Some (PDict inner)).
Proof.
  intros Hclaim.
  specialize (Hclaim (PStr "c")
                (PDict {[ "session_required_mfa" := PBool true ]})
                (Some {[ "authorization_parameters" := PInt 1 ]})
                (SE.MkSessionError (PStr "c")
                   (MkAuthorizationParameters PNone PNone PNone PNone
                      (PBool true) PNone ∅)
                   {[ "authorization_parameters" := PInt 1 ]})
                true
                {[ "session_required_mfa" := PBool true ]}
                (<[ "authorization_parameters" := PInt 1 ]>
                   {[ "code" := PStr "c" ]})).
  rewrite lookup_insert_eq in Hclaim.
  discriminate Hclaim; by_evaluation.
Qed.

(** C7 (amended): for every successfully constructed session error and
    either value of [include_extra], [to_dict] returns a mapping that has
    the keys [code] and [authorization_parameters].  Without extras it is
    the two-entry mapping of the code and of the authorization parameters
    serialized by their own [to_dict] with the same flag; with extras it
    is that mapping with the top-level extra entries written over it, so
    that it holds every extra entry, and holds the code, respectively the
    serialized authorization parameters, under a key that the extra
    fields do not use.  The extra entries are merged when [include_extra]
    is true and not otherwise.  The session error parsed from
    [{"code": "c", "authorization_parameters":
    {"session_required_mfa": True}, "extra_x": 5}] serializes, with extras,
    to that mapping. *)
Theorem C7_session_error_to_dict :
  (∀ (code authorization_parameters : pyval) (extra : option dict)
     (self : SE.t) (include_extra : bool),
     SE.__init__ code authorization_parameters extra = inr self →
     ∃ inner d,
       AP.to_dict (SE.authorization_parameters self) include_extra = inr inner
       ∧ SE.to_dict self include_extra = inr d
       ∧ is_Some (d !! "code")
       ∧ is_Some (d !! "authorization_parameters")
       ∧ (include_extra = false →
          d = <[ "authorization_parameters" := PDict inner ]>
                {[ "code" := SE.code self ]})
       ∧ (include_extra = true →
          d = SE.extra_fields self
              ∪ <[ "authorization_parameters" := PDict inner ]>
                  {[ "code" := SE.code self ]})
       ∧ (include_extra = true →
          ∀ k v, SE.extra_fields self !! k = Some v → d !! k = Some v)
       ∧ (include_extra = true →
          SE.extra_fields self !! "code" = None →
          d !! "code" = Some (SE.code self))
       ∧ (include_extra = true →
          SE.extra_fields self !! "authorization_parameters" = None →
          d !! "authorization_parameters" = Some (PDict inner)))
  ∧ (∃ x, SE.from_dict sample_error = inr x
          ∧ SE.to_dict x true = inr sample_error).
Proof.
  split.
  - intros code ap extra self include_extra _.
    destruct (SE_to_dict_lookup self include_extra)
      as (inner & d & Hinner & Hd & Hlook).
    exists inner, d. split; [done|]. split; [done|].
    fold (base_dict self inner).
    assert (base_dict self inner !! "code" = Some (SE.code self)) as Hcode.
    { unfold base_dict. rewrite lookup_insert_ne by done.
      apply lookup_singleton_eq. }
    assert (base_dict self inner !! "authorization_parameters"
            = Some (PDict inner)) as Hap.
    { unfold base_dict. apply lookup_insert_eq. }
    split_and!.
    + rewrite Hlook, Hcode. destruct include_extra; [|done].
      by destruct (SE.extra_fields self !! "code").
    + rewrite Hlook, Hap. destruct include_extra; [|done].
      by destruct (SE.extra_fields self !! "authorization_parameters").
    + intros ->. apply map_eq. intros k. by rewrite Hlook.
    + intros ->. apply map_eq. intros k. rewrite Hlook, lookup_union.
      by destruct (SE.extra_fields self !! k), (base_dict self inner !! k).
    + intros -> k v Hk. by rewrite Hlook, Hk.
    + intros -> Hfree. by rewrite Hlook, Hfree.
    + intros -> Hfree. by rewrite Hlook, Hfree.
  - exists (SE.MkSessionError (PStr "c")
              (MkAuthorizationParameters PNone PNone PNone PNone
                 (PBool true) PNone ∅)
              {[ "extra_x" := PInt 5 ]}).
    split; by_evaluation.
Qed.

Lemma C7_session_error_to_dict_witness :
  ∃ inner d,
    AP.to_dict (parsed sample_params) false = inr inner
    ∧ SE.to_dict (SE.MkSessionError (PStr "c") (parsed sample_params) ∅) false
      = inr d
    ∧ d = <[ "authorization_parameters" := PDict inner ]>
            {[ "code" := PStr "c" ]}.
Proof.
  destruct (proj1 C7_session_error_to_dict
              (PStr "c") (PAuthParams (parsed sample_params)) None
              (SE.MkSessionError (PStr "c") (parsed sample_params) ∅) false)
    as (inner & d & Hinner & Hd & _ & _ & Hbase & _); [reflexivity|].
  exists inner, d. split; [exact Hinner|]. split; [exact Hd|].
  apply Hbase. reflexivity.
Defined.

(** ** Extra fields and recognized names *)

Lemma SE_init_inr (code authorization_parameters : pyval)
    (extra : option dict) (x : SE.t) :
  SE.__init__ code authorization_parameters extra = inr x →
  SE.code x = code ∧ code ≠ PNone ∧ SE.extra_fields x = default ∅ extra.
Proof.
  unfold SE.__init__. rewrite or_empty_default.
  destruct (is_none code) eqn:Hcode; [discriminate|].
  apply is_none_false in Hcode.
  destruct authorization_parameters as [| | | | |param_dict|p];
    try discriminate.
  - destruct (AP.from_dict param_dict) as [e|p]; simpl; [discriminate|].
    by intros [= <-].
  - by intros [= <-].
Qed.

(** C9: an object built by [from_dict], of either class, has no extra
    field under a recognized name (the six [session_*] names, respectively
    [code] and [authorization_parameters]).  The constructors do not
    enforce this: an [extra] mapping given to them is stored as it is, also
    when it has recognized names among its keys, and [to_dict] with
    [include_extra] then yields, under every key of the extra mapping, the
    extra value, which takes the place of the value of the recognized
    field. *)
Theorem C9_extra_keys_disjoint_only_through_from_dict :
  (∀ (param_dict : dict) (x : AP.t),
     AP.from_dict param_dict = inr x →
     ∀ k, k ∈ keys AP.SUPPORTED_FIELDS → extra_fields x !! k = None)
  ∧ (∀ (error_dict : dict) (x : SE.t),
       SE.from_dict error_dict = inr x →
       ∀ k, k ∈ keys SE.SUPPORTED_FIELDS → SE.extra_fields x !! k = None)
  ∧ (∀ (sm sri srp srsd mfa srs : pyval) (extra : dict) (x : AP.t),
       AP.__init__ sm sri srp srsd mfa srs (Some extra) = inr x →
       extra_fields x = extra
       ∧ ∃ d, AP.to_dict x true = inr d
              ∧ ∀ k v, extra !! k = Some v → d !! k = Some v)
  ∧ (∀ (code authorization_parameters : pyval) (extra : dict) (x : SE.t),
       SE.__init__ code authorization_parameters (Some extra) = inr x →
       SE.extra_fields x = extra
       ∧ ∃ d, SE.to_dict x true = inr d
              ∧ ∀ k v, extra !! k = Some v → d !! k = Some v)
  ∧ (∃ (x : AP.t) (d : dict),
       AP.__init__ PNone PNone PNone PNone (PBool true) PNone
         (Some {[ "session_required_mfa" := PBool false ]}) = inr x
       ∧ session_required_mfa x = PBool true
       ∧ extra_fields x !! "session_required_mfa" = Some (PBool false)
       ∧ AP.to_dict x true = inr d
       ∧ d !! "session_required_mfa" = Some (PBool false))
  ∧ (∃ (x : SE.t) (d : dict),
       SE.__init__ (PStr "c") (PDict {[ "session_required_mfa" := PBool true ]})
         (Some {[ "code" := PStr "other" ]}) = inr x
       ∧ SE.code x = PStr "c"
       ∧ SE.extra_fields x !! "code" = Some (PStr "other")
       ∧ SE.to_dict x true = inr d
       ∧ d !! "code" = Some (PStr "other")).
Proof.
  split_and!.
  - intros param_dict x ->%AP_from_dict_inr k Hk.
    simpl extra_fields. by apply extras_of_supported.
  - intros error_dict x Hx k Hk. rewrite SE_from_dict_unfold in Hx.
    apply SE_init_inr in Hx as (_ & _ & ->). simpl.
    by apply extras_of_supported.
  - intros sm sri srp srsd mfa srs extra x ->%AP_init_inr.
    simpl. split; [done|].
    destruct (AP_to_dict_lookup
                (MkAuthorizationParameters sm sri srp srsd mfa srs extra) true)
      as (d & Hd & Hlook).
    exists d. split; [done|]. intros k v Hk. rewrite Hlook. simpl. by rewrite Hk.
  - intros code ap extra x Hx.
    apply SE_init_inr in Hx as (_ & _ & Hextra). simpl in Hextra.
    split; [done|].
    destruct (SE_to_dict_lookup x true) as (inner & d & _ & Hd & Hlook).
    exists d. split; [done|]. intros k v Hk. by rewrite Hlook, Hextra, Hk.
  - exists (MkAuthorizationParameters PNone PNone PNone PNone (PBool true)
              PNone {[ "session_required_mfa" := PBool false ]}).
    exists {[ "session_required_mfa" := PBool false ]}.
    split_and!; [by_evaluation | reflexivity | apply lookup_singleton_eq
                | by_evaluation | apply lookup_singleton_eq].
  - exists (SE.MkSessionError (PStr "c")
              (MkAuthorizationParameters PNone PNone PNone PNone
                 (PBool true) PNone ∅)
              {[ "code" := PStr "other" ]}).
    exists (<[ "code" := PStr "other" ]>
              {[ "authorization_parameters" :=
                   PDict {[ "session_required_mfa" := PBool true ]} ]}).
    split_and!; [by_evaluation | reflexivity | apply lookup_singleton_eq
                | by_evaluation | apply lookup_insert_eq].
Qed.

Lemma C9_extra_keys_disjoint_witness :
  AP.from_dict sample_params = inr (parsed sample_params)
  ∧ extra_fields (parsed sample_params) !! "session_message" = None.
Proof.
  assert (AP.from_dict sample_params = inr (parsed sample_params)) as Hx
    by by_evaluation.
  split; [exact Hx|].
  apply (proj1 C9_extra_keys_disjoint_only_through_from_dict
           sample_params (parsed sample_params) Hx).
  in_keys.
Defined.

(** ** Recognized keys mapped to [None] *)

(** C10: [from_dict] treats a recognized key that is mapped to [None] as
    it treats a missing one.  For a recognized [name], parsing a mapping
    that maps [name] to [None] gives the outcome of parsing the mapping
    without [name]; in the object that is built the field is [None],
    [name] is no key of [extra_fields], and no output of [to_dict] has an
    entry under [name].  Hence a mapping whose keys are all recognized and
    all mapped to [None] fails. *)
Theorem C10_from_dict_null_as_absent (param_dict : dict) (name : string) :
  name ∈ keys AP.SUPPORTED_FIELDS →
  AP.from_dict (<[ name := PNone ]> param_dict)
  = AP.from_dict (delete name param_dict)
  ∧ (∀ x, AP.from_dict (<[ name := PNone ]> param_dict) = inr x →
          AP.getattr x name = inr PNone
          ∧ extra_fields x !! name = None
          ∧ ∀ include_extra,
              ∃ d, AP.to_dict x include_extra = inr d ∧ d !! name = None)
  ∧ (∀ null_dict : dict,
       (∀ k v, null_dict !! k = Some v →
               k ∈ keys AP.SUPPORTED_FIELDS ∧ v = PNone) →
       AP.from_dict null_dict = inl (ValueError AP.no_field_message)).
Proof.
  intros Hname. split_and!.
  - assert (∀ k, dict_get (<[ name := PNone ]> param_dict) k
                 = dict_get (delete name param_dict) k) as Hget.
    { intros k. unfold dict_get. destruct (decide (name = k)) as [->|Hne].
      - by rewrite lookup_insert_eq, lookup_delete_eq.
      - by rewrite lookup_insert_ne, lookup_delete_ne. }
    assert (extras_of AP.SUPPORTED_FIELDS (<[ name := PNone ]> param_dict)
            = extras_of AP.SUPPORTED_FIELDS (delete name param_dict)) as Hextras.
    { apply map_eq. intros k. rewrite !extras_of_lookup.
      case_decide as Hk; [done|].
      assert (name ≠ k) by congruence.
      by rewrite lookup_insert_ne, lookup_delete_ne. }
    by rewrite !AP_from_dict_unfold, !Hget, Hextras.
  - intros x ->%AP_from_dict_inr.
    assert (AP.getattr (parsed (<[ name := PNone ]> param_dict)) name
            = inr PNone) as Hattr.
    { rewrite parsed_getattr by done. by rewrite dict_get_insert_eq. }
    assert (extra_fields (parsed (<[ name := PNone ]> param_dict)) !! name
            = None) as Hextra.
    { simpl. by apply extras_of_supported. }
    split; [done|]. split; [done|]. intros include_extra.
    destruct (AP_to_dict_lookup (parsed (<[ name := PNone ]> param_dict))
                include_extra) as (d & Hd & Hlook).
    exists d. split; [done|]. rewrite Hlook, Hextra.
    unfold field_entry, set_value. rewrite decide_True, Hattr by done.
    by destruct include_extra.
  - intros null_dict Hnull. rewrite AP_from_dict_unfold, AP_init_cases.
    assert (∀ k, k ∈ keys AP.SUPPORTED_FIELDS →
                 is_none (dict_get null_dict k) = true) as Hnone.
    { intros k _. apply dict_get_is_none.
      destruct (null_dict !! k) as [v|] eqn:Hk; [|by left].
      right. by destruct (Hnull k v Hk) as [_ ->]. }
    simpl forallb. rewrite !Hnone by in_keys. reflexivity.
Qed.

Lemma C10_from_dict_null_as_absent_witness :
  AP.from_dict (<[ "session_required_mfa" := PNone ]> sample_params)
  = inr (parsed sample_params)
  ∧ AP.from_dict (<[ "session_required_mfa" := PNone ]> sample_params)
    = AP.from_dict (delete "session_required_mfa" sample_params).
Proof.
  split; [by_evaluation|].
  apply (C10_from_dict_null_as_absent sample_params "session_required_mfa").
  in_keys.
Defined.

(** * Further properties *)

(** ** Validation does not depend on the extra fields *)

Definition with_extra_fields (x : AP.t) (extra : dict) : AP.t :=
  MkAuthorizationParameters
    (session_message x) (session_required_identities x)
    (session_required_policies x) (session_required_single_domain x)
    (session_required_mfa x) (session_required_scopes x) extra.

Lemma AP_init_change_extra (sm sri srp srsd mfa srs : pyval)
    (extra extra' : option dict) :
  AP.__init__ sm sri srp srsd mfa srs extra' =
    match AP.__init__ sm sri srp srsd mfa srs extra with
    | inl e => inl e
    | inr x => inr (with_extra_fields x (default ∅ extra'))
    end.
Proof.
  rewrite !AP_init_cases, or_empty_default.
  destruct (forallb is_none _); [done|].
  repeat (match goal with
          | |- context [ill_typed ?v ?ty] => destruct (ill_typed v ty)
          end; [done|]).
  reflexivity.
Qed.

(** X1: whether the constructor of the authorization parameters fails, and
    with which error, is decided by the six recognized fields alone; the
    [extra] argument only fills [extra_fields], and [None] and the empty
    mapping give the same object. *)
Theorem X1_init_validation_ignores_extra (sm sri srp srsd mfa srs : pyval)
    (extra : option dict) :
  AP.__init__ sm sri srp srsd mfa srs extra =
    match AP.__init__ sm sri srp srsd mfa srs None with
    | inl e => inl e
    | inr x => inr (with_extra_fields x (default ∅ extra))
    end
  ∧ AP.__init__ sm sri srp srsd mfa srs (Some ∅)
    = AP.__init__ sm sri srp srsd mfa srs None.
Proof.
  split; [apply AP_init_change_extra|].
  rewrite (AP_init_change_extra sm sri srp srsd mfa srs None (Some ∅)).
  destruct (AP.__init__ sm sri srp srsd mfa srs None) as [e|x] eqn:Hx; [done|].
  apply AP_init_inr in Hx as ->. reflexivity.
Qed.

(** ** The first ill-typed field *)

(** The first entry of the table, in its order, whose field is set and is
    not an instance of the declared type. *)
Definition first_ill_typed (self : AP.t) : option (string * pytype) :=
  List.find
    (λ field, match AP.getattr self field.1 with
              | inr v => ill_typed v field.2
              | inl _ => false
              end)
    AP.SUPPORTED_FIELDS.

(** X2: when at least one recognized field is set, the constructor raises
    for the first field of the table that is ill-typed, and the message of
    the [ValueError] names that field and its declared type; later
    ill-typed fields are not reported.  When no field is ill-typed the
    object is returned. *)
Theorem X2_init_reports_first_ill_typed_field
    (sm sri srp srsd mfa srs : pyval) (extra : option dict) :
  forallb is_none [sm; sri; srp; srsd; mfa; srs] = false →
  AP.__init__ sm sri srp srsd mfa srs extra =
    match first_ill_typed
            (MkAuthorizationParameters sm sri srp srsd mfa srs
               (default ∅ extra)) with
    | Some (field_name, field_type) =>
        inl (ValueError ("'" +:+ field_name +:+ "' must be of type "
                             +:+ type_name field_type))
    | None =>
        inr (MkAuthorizationParameters sm sri srp srsd mfa srs
               (default ∅ extra))
    end.
Proof.
  intros Hset. rewrite AP_init_cases, Hset, or_empty_default.
  unfold first_ill_typed. cbn [List.find AP.SUPPORTED_FIELDS fst snd].
  change (AP.getattr ?x "session_message") with (inr (B := pyval) (A := exn) (session_message x)).
  cbn.
  repeat (match goal with
          | |- context [ill_typed ?v ?ty] => destruct (ill_typed v ty)
          end; [reflexivity|]).
  reflexivity.
Qed.

Lemma X2_init_reports_first_witness :
  AP.__init__ (PInt 1) PNone PNone PNone (PStr "yes") PNone None
  = inl (ValueError "'session_message' must be of type str").
Proof.
  apply (X2_init_reports_first_ill_typed_field
           (PInt 1) PNone PNone PNone (PStr "yes") PNone None).
  reflexivity.
Defined.

(** ** What [to_dict] never emits *)

Lemma field_entry_Some (self : AP.t) (k : string) (v : pyval) :
  field_entry self k = Some v ↔
  k ∈ keys AP.SUPPORTED_FIELDS ∧ AP.getattr self k = inr v ∧ v ≠ PNone.
Proof.
  unfold field_entry, set_value. case_decide as Hk.
  - destruct (AP.getattr self k) as [e|w].
    { split; [discriminate | intros (_ & [=] & _)]. }
    destruct (is_none w) eqn:Hw.
    + apply is_none_true in Hw. subst w.
      split; [discriminate | intros (_ & [= <-] & Hv); done].
    + apply is_none_false in Hw.
      split; [intros [= <-]; done | intros (_ & [= <-] & _); done].
  - split; [discriminate | intros (Hk' & _); done].
Qed.

(** X3: without extras, the output of [to_dict] of any
    authorization-parameters object has entries under recognized names
    only, every entry is the value of the attribute of that name, and no
    entry is [None]; conversely every attribute that is not [None] has its
    entry. *)
Theorem X3_to_dict_without_extra_entries (self : AP.t) :
  ∃ d, AP.to_dict self false = inr d
       ∧ ∀ k v, d !! k = Some v ↔
                k ∈ keys AP.SUPPORTED_FIELDS
                ∧ AP.getattr self k = inr v
                ∧ v ≠ PNone.
Proof.
  destruct (AP_to_dict_lookup self false) as (d & Hd & Hlook).
  exists d. split; [done|]. intros k v. rewrite Hlook. apply field_entry_Some.
Qed.

Lemma AP_init_some_set (sm sri srp srsd mfa srs : pyval)
    (extra : option dict) (x : AP.t) :
  AP.__init__ sm sri srp srsd mfa srs extra = inr x →
  ∃ name v, field_entry x name = Some v.
Proof.
  intros Hx. pose proof (AP_init_inr _ _ _ _ _ _ _ _ Hx) as ->.
  rewrite AP_init_cases in Hx.
  destruct (forallb is_none [sm; sri; srp; srsd; mfa; srs]) eqn:Hall;
    [discriminate|].
  clear Hx. simpl in Hall. rewrite !andb_false_iff in Hall.
  destruct Hall as [H|[H|[H|[H|[H|[H|H]]]]]]; [..|done].
  - exists "session_message", sm.
    apply field_entry_Some. split_and!; [in_keys|done|by apply is_none_false].
  - exists "session_required_identities", sri.
    apply field_entry_Some. split_and!; [in_keys|done|by apply is_none_false].
  - exists "session_required_policies", srp.
    apply field_entry_Some. split_and!; [in_keys|done|by apply is_none_false].
  - exists "session_required_single_domain", srsd.
    apply field_entry_Some. split_and!; [in_keys|done|by apply is_none_false].
  - exists "session_required_mfa", mfa.
    apply field_entry_Some. split_and!; [in_keys|done|by apply is_none_false].
  - exists "session_required_scopes", srs.
    apply field_entry_Some. split_and!; [in_keys|done|by apply is_none_false].
Qed.

(** X4: a successfully constructed authorization-parameters object never
    serializes to the empty mapping, with or without its extra fields: the
    output has an entry under the name of a recognized field. *)
Theorem X4_to_dict_of_constructed_not_empty
    (sm sri srp srsd mfa srs : pyval) (extra : option dict) (x : AP.t)
    (include_extra : bool) :
  AP.__init__ sm sri srp srsd mfa srs extra = inr x →
  ∃ d, AP.to_dict x include_extra = inr d
       ∧ d ≠ ∅
       ∧ ∃ name, name ∈ keys AP.SUPPORTED_FIELDS ∧ is_Some (d !! name).
Proof.
  intros (name & v & Hentry)%AP_init_some_set.
  destruct (AP_to_dict_lookup x include_extra) as (d & Hd & Hlook).
  exists d. split; [done|].
  assert (is_Some (d !! name)) as Hsome.
  { rewrite Hlook, Hentry. destruct include_extra; [|done].
    by destruct (extra_fields x !! name). }
  split.
  - intros ->. rewrite lookup_empty in Hsome. by destruct Hsome.
  - exists name. split; [|done]. by apply field_entry_Some in Hentry as [? _].
Qed.

Lemma X4_to_dict_not_empty_witness :
  ∃ d, AP.to_dict (parsed sample_params) true = inr d ∧ d ≠ ∅.
Proof.
  destruct (X4_to_dict_of_constructed_not_empty
              (PStr "m") PNone PNone PNone PNone PNone
              (Some {[ "custom_key" := PInt 1 ]})
              (parsed sample_params) true) as (d & Hd & Hne & _);
    [by_evaluation|].
  exists d. split; [exact Hd | exact Hne].
Defined.

(** ** Parsing the output of [to_dict] *)

Lemma dict_get_to_dict (x : AP.t) (include_extra : bool) (d : dict)
    (name : string) (v : pyval) :
  name ∈ keys AP.SUPPORTED_FIELDS →
  AP.getattr x name = inr v →
  AP.to_dict x include_extra = inr d →
  include_extra = false ∨ extra_fields x !! name = None →
  dict_get d name = v.
Proof.
  intros Hname Hv Hd Hfree.
  destruct (AP_to_dict_lookup x include_extra) as (d' & Hd' & Hlook).
  rewrite Hd in Hd'. injection Hd' as <-.
  unfold dict_get. rewrite Hlook.
  assert ((if include_extra
           then match extra_fields x !! name with
                | Some w => Some w
                | None => field_entry x name
                end
           else field_entry x name) = field_entry x name) as ->.
  { destruct Hfree as [-> | ->]; by try destruct include_extra. }
  unfold field_entry, set_value. rewrite decide_True, Hv by done.
  destruct (is_none v) eqn:Hnone; simpl; [|done].
  symmetry. by apply is_none_true.
Qed.

Lemma extras_of_to_dict (x : AP.t) (include_extra : bool) (d : dict) :
  AP.to_dict x include_extra = inr d →
  extras_of AP.SUPPORTED_FIELDS d =
    if include_extra then extras_of AP.SUPPORTED_FIELDS (extra_fields x)
    else ∅.
Proof.
  intros Hd.
  destruct (AP_to_dict_lookup x include_extra) as (d' & Hd' & Hlook).
  rewrite Hd in Hd'. injection Hd' as <-.
  apply map_eq. intros k. rewrite extras_of_lookup, Hlook.
  unfold field_entry.
  destruct include_extra.
  - rewrite extras_of_lookup. case_decide; [done|].
    by destruct (extra_fields x !! k).
  - rewrite lookup_empty. by case_decide.
Qed.

Lemma extras_of_disjoint (fields : list (string * pytype)) (d : dict) :
  (∀ k, k ∈ keys fields → d !! k = None) → extras_of fields d = d.
Proof.
  intros Hfree. apply map_eq. intros k. rewrite extras_of_lookup.
  case_decide; [by rewrite Hfree | done].
Qed.

(** The constructor call that [from_dict] makes on an output of [to_dict]
    in which no recognized name was overwritten by an extra entry. *)
Lemma AP_from_dict_to_dict (x : AP.t) (include_extra : bool) (d : dict) :
  AP.to_dict x include_extra = inr d →
  include_extra = false
  ∨ (∀ k, k ∈ keys AP.SUPPORTED_FIELDS → extra_fields x !! k = None) →
  AP.from_dict d =
    AP.__init__
      (session_message x) (session_required_identities x)
      (session_required_policies x) (session_required_single_domain x)
      (session_required_mfa x) (session_required_scopes x)
      (Some (if include_extra then extra_fields x else ∅)).
Proof.
  intros Hd Hfree. rewrite AP_from_dict_unfold.
  assert (∀ name, name ∈ keys AP.SUPPORTED_FIELDS →
                  include_extra = false ∨ extra_fields x !! name = None)
    as Hfree'.
  { intros name Hname. destruct Hfree as [?|Hfree]; [by left|].
    right. by apply Hfree. }
  rewrite (dict_get_to_dict x include_extra d "session_message"
             (session_message x)) by (done || in_keys || (apply Hfree'; in_keys)).
  rewrite (dict_get_to_dict x include_extra d "session_required_identities"
             (session_required_identities x))
    by (done || in_keys || (apply Hfree'; in_keys)).
  rewrite (dict_get_to_dict x include_extra d "session_required_policies"
             (session_required_policies x))
    by (done || in_keys || (apply Hfree'; in_keys)).
  rewrite (dict_get_to_dict x include_extra d "session_required_single_domain"
             (session_required_single_domain x))
    by (done || in_keys || (apply Hfree'; in_keys)).
  rewrite (dict_get_to_dict x include_extra d "session_required_mfa"
             (session_required_mfa x))
    by (done || in_keys || (apply Hfree'; in_keys)).
  rewrite (dict_get_to_dict x include_extra d "session_required_scopes"
             (session_required_scopes x))
    by (done || in_keys || (apply Hfree'; in_keys)).
  rewrite (extras_of_to_dict x include_extra d) by done.
  destruct include_extra; [|done].
  destruct Hfree as [?|Hfree]; [done|].
  by rewrite extras_of_disjoint.
Qed.

(** X5: an authorization-parameters object [x] that the constructor
    returned, whatever its extra fields, serializes without extras to a
    mapping that [from_dict] parses successfully, into the object with the
    six fields of [x] and no extra field. *)
Theorem X5_from_dict_of_to_dict_without_extra
    (sm sri srp srsd mfa srs : pyval) (extra : option dict) (x : AP.t) :
  AP.__init__ sm sri srp srsd mfa srs extra = inr x →
  ∃ d, AP.to_dict x false = inr d
       ∧ AP.from_dict d = inr (with_extra_fields x ∅).
Proof.
  intros Hx. destruct (AP_to_dict_lookup x false) as (d & Hd & _).
  exists d. split; [done|].
  rewrite (AP_from_dict_to_dict x false d Hd) by by left.
  pose proof (AP_init_inr _ _ _ _ _ _ _ _ Hx) as ->. simpl.
  rewrite (AP_init_change_extra sm sri srp srsd mfa srs extra (Some ∅)), Hx.
  reflexivity.
Qed.

Lemma X5_from_dict_of_to_dict_witness :
  ∃ d, AP.to_dict (parsed sample_params) false = inr d
       ∧ AP.from_dict d = inr (with_extra_fields (parsed sample_params) ∅).
Proof.
  apply (X5_from_dict_of_to_dict_without_extra
           (PStr "m") PNone PNone PNone PNone PNone
           (Some {[ "custom_key" := PInt 1 ]})).
  by_evaluation.
Defined.

(** X6: the round trip through [to_dict] with extras and [from_dict] gives
    back every object that the constructor returned for an [extra] mapping
    without recognized names among its keys, not only the objects built by
    [from_dict]. *)
Theorem X6_roundtrip_of_constructed
    (sm sri srp srsd mfa srs : pyval) (extra : option dict) (x : AP.t) :
  AP.__init__ sm sri srp srsd mfa srs extra = inr x →
  (∀ k, k ∈ keys AP.SUPPORTED_FIELDS → extra_fields x !! k = None) →
  ∃ d, AP.to_dict x true = inr d ∧ AP.from_dict d = inr x.
Proof.
  intros Hx Hfree. destruct (AP_to_dict_lookup x true) as (d & Hd & _).
  exists d. split; [done|].
  rewrite (AP_from_dict_to_dict x true d Hd) by by right.
  pose proof (AP_init_inr _ _ _ _ _ _ _ _ Hx) as ->. simpl.
  rewrite (AP_init_change_extra sm sri srp srsd mfa srs extra
             (Some (default ∅ extra))), Hx.
  reflexivity.
Qed.

Lemma X6_roundtrip_of_constructed_witness :
  ∃ d, AP.to_dict (MkAuthorizationParameters PNone PNone PNone PNone
                     (PBool false) (PList []) {[ "k" := PNone ]}) true = inr d
       ∧ AP.from_dict d
         = inr (MkAuthorizationParameters PNone PNone PNone PNone
                  (PBool false) (PList []) {[ "k" := PNone ]}).
Proof.
  apply (X6_roundtrip_of_constructed
           PNone PNone PNone PNone (PBool false) (PList [])
           (Some {[ "k" := PNone ]})).
  - by_evaluation.
  - intros k Hk. simpl. apply lookup_singleton_ne.
    apply list_elem_of_In in Hk. simpl in Hk.
    intros <-. intuition discriminate.
Defined.

(** ** Serializing a parsed mapping *)

Lemma filter_lookup_decide (P : string * pyval → Prop)
    `{!∀ kv, Decision (P kv)} (m : dict) (k : string) :
  filter P m !! k =
    match m !! k with
    | Some v => if decide (P (k, v)) then Some v else None
    | None => None
    end.
Proof.
  destruct (m !! k) as [v|] eqn:Hk.
  - case_decide as HP.
    + by apply map_lookup_filter_Some.
    + apply map_lookup_filter_None. right. intros v' Hv'.
      rewrite Hk in Hv'. by injection Hv' as <-.
  - apply map_lookup_filter_None. by left.
Qed.

(** A mapping without its recognized keys that are mapped to [None]. *)
Definition without_null_fields (param_dict : dict) : dict :=
  filter (λ kv, kv.1 ∉ keys AP.SUPPORTED_FIELDS ∨ is_none kv.2 = false)
         param_dict.

(** The entries of a mapping under recognized keys, those mapped to [None]
    left out. *)
Definition set_fields_of (param_dict : dict) : dict :=
  filter (λ kv, kv.1 ∈ keys AP.SUPPORTED_FIELDS ∧ is_none kv.2 = false)
         param_dict.

Lemma parsed_field_entry_lookup (param_dict : dict) (k : string) :
  field_entry (parsed param_dict) k =
    if decide (k ∈ keys AP.SUPPORTED_FIELDS)
    then match param_dict !! k with
         | Some v => if is_none v then None else Some v
         | None => None
         end
    else None.
Proof.
  case_decide as Hk.
  - rewrite parsed_field_entry by done. unfold dict_get.
    by destruct (param_dict !! k).
  - unfold field_entry. by rewrite decide_False.
Qed.

Lemma to_dict_parsed_true (param_dict : dict) :
  AP.to_dict (parsed param_dict) true = inr (without_null_fields param_dict).
Proof.
  destruct (AP_to_dict_lookup (parsed param_dict) true) as (d & -> & Hlook).
  f_equal. apply map_eq. intros k. unfold without_null_fields.
  rewrite Hlook, filter_lookup_decide, parsed_field_entry_lookup.
  simpl extra_fields. rewrite extras_of_lookup.
  destruct (decide (k ∈ keys AP.SUPPORTED_FIELDS)) as [Hk|Hk].
  - destruct (param_dict !! k) as [v|]; [|done]. simpl.
    destruct (is_none v) eqn:Hv.
    + rewrite decide_False; [done|]. intros [?|?]; done.
    + rewrite decide_True; [done|]. by right.
  - destruct (param_dict !! k) as [v|]; [|done]. simpl.
    rewrite decide_True; [done|]. by left.
Qed.

Lemma to_dict_parsed_false (param_dict : dict) :
  AP.to_dict (parsed param_dict) false = inr (set_fields_of param_dict).
Proof.
  destruct (AP_to_dict_lookup (parsed param_dict) false) as (d & -> & Hlook).
  f_equal. apply map_eq. intros k. unfold set_fields_of.
  rewrite Hlook, filter_lookup_decide, parsed_field_entry_lookup.
  destruct (decide (k ∈ keys AP.SUPPORTED_FIELDS)) as [Hk|Hk].
  - destruct (param_dict !! k) as [v|]; [|done]. simpl.
    destruct (is_none v) eqn:Hv.
    + rewrite decide_False; [done|]. intros [_ ?]; done.
    + rewrite decide_True; [done|]. done.
  - destruct (param_dict !! k) as [v|]; [|done]. simpl.
    rewrite decide_False; [done|]. intros [? _]; done.
Qed.

Lemma without_null_fields_clean (param_dict : dict) :
  (∀ name, name ∈ keys AP.SUPPORTED_FIELDS →
           param_dict !! name ≠ Some PNone) →
  without_null_fields param_dict = param_dict.
Proof.
  intros Hclean. apply map_eq. intros k. unfold without_null_fields.
  rewrite filter_lookup_decide.
  destruct (param_dict !! k) as [v|] eqn:Hk; [|done]. simpl.
  rewrite decide_True; [done|].
  destruct (decide (k ∈ keys AP.SUPPORTED_FIELDS)) as [Hin|Hin]; [|by left].
  right. apply is_none_false. intros ->. by apply (Hclean k).
Qed.

(** X7: the object that [from_dict] builds from a mapping serializes, with
    extras, to that mapping without its recognized keys that are mapped to
    [None], and, without extras, to the entries of the mapping under
    recognized keys that are not mapped to [None].  So a mapping in which
    no recognized key is mapped to [None] is serialized back unchanged. *)
Theorem X7_to_dict_of_from_dict (param_dict : dict) (x : AP.t) :
  AP.from_dict param_dict = inr x →
  AP.to_dict x true = inr (without_null_fields param_dict)
  ∧ AP.to_dict x false = inr (set_fields_of param_dict)
  ∧ ((∀ name, name ∈ keys AP.SUPPORTED_FIELDS →
              param_dict !! name ≠ Some PNone) →
     AP.to_dict x true = inr param_dict).
Proof.
  intros ->%AP_from_dict_inr. split_and!.
  - apply to_dict_parsed_true.
  - apply to_dict_parsed_false.
  - intros Hclean. rewrite to_dict_parsed_true.
    by rewrite without_null_fields_clean.
Qed.

Lemma X7_to_dict_of_from_dict_witness :
  AP.to_dict (parsed sample_params) true = inr sample_params.
Proof.
  apply (X7_to_dict_of_from_dict sample_params (parsed sample_params));
    [by_evaluation|].
  intros name _. unfold sample_params.
  destruct (decide (name = "session_message")) as [->|Hne].
  - rewrite lookup_insert_eq. discriminate.
  - rewrite lookup_insert_ne by done.
    destruct (decide (name = "custom_key")) as [->|Hne'].
    + rewrite lookup_singleton_eq. discriminate.
    + rewrite lookup_singleton_ne by done. discriminate.
Defined.

(** ** Unrecognized keys *)

(** X8: an entry under an unrecognized key never changes the outcome of
    [from_dict] on the recognized part: parsing fails with the same
    exception with and without the entry, and when it succeeds the six
    fields are the same and the entry is added to [extra_fields], whatever
    its value. *)
Theorem X8_from_dict_unrecognized_key (param_dict : dict) (k : string)
    (v : pyval) :
  k ∉ keys AP.SUPPORTED_FIELDS →
  AP.from_dict (<[ k := v ]> param_dict) =
    match AP.from_dict param_dict with
    | inl e => inl e
    | inr x => inr (with_extra_fields x (<[ k := v ]> (extra_fields x)))
    end.
Proof.
  intros Hk.
  assert (∀ name, name ∈ keys AP.SUPPORTED_FIELDS →
                  dict_get (<[ k := v ]> param_dict) name
                  = dict_get param_dict name) as Hget.
  { intros name Hname. apply dict_get_insert_ne. by intros ->. }
  assert (extras_of AP.SUPPORTED_FIELDS (<[ k := v ]> param_dict)
          = <[ k := v ]> (extras_of AP.SUPPORTED_FIELDS param_dict)) as Hextras.
  { apply map_eq. intros k'. rewrite extras_of_lookup.
    destruct (decide (k = k')) as [<-|Hne].
    - by rewrite decide_False, !lookup_insert_eq.
    - rewrite !lookup_insert_ne, extras_of_lookup by done. done. }
  rewrite !AP_from_dict_unfold, !Hget, Hextras by in_keys.
  rewrite (AP_init_change_extra _ _ _ _ _ _
             (Some (extras_of AP.SUPPORTED_FIELDS param_dict))
             (Some (<[ k := v ]> (extras_of AP.SUPPORTED_FIELDS param_dict)))).
  destruct (AP.__init__ _ _ _ _ _ _ _) as [e|x] eqn:Hx; [done|].
  apply AP_init_inr in Hx as ->. reflexivity.
Qed.

Lemma X8_from_dict_unrecognized_key_witness :
  AP.from_dict (<[ "custom_key" := PInt 1 ]> {[ "session_message" := PStr "m" ]})
  = inr (parsed sample_params).
Proof.
  rewrite (X8_from_dict_unrecognized_key
             {[ "session_message" := PStr "m" ]} "custom_key" (PInt 1)).
  - by_evaluation.
  - intros Hin%list_elem_of_In. simpl in Hin. intuition discriminate.
Defined.

(** * Further properties of session errors *)

(** ** The outcome of [from_dict] *)

Lemma dict_get_not_none (d : dict) (k : string) :
  dict_get d k ≠ PNone → d !! k = Some (dict_get d k).
Proof. unfold dict_get. by destruct (d !! k). Qed.

(** X9: the failures of [from_dict] of a session error, in the order in
    which the constructor checks.  A mapping without [code], or with
    [code] mapped to [None], fails with the error about the code, whatever
    its other entries are.  With a code, a mapping whose
    [authorization_parameters] is missing, or is neither a dictionary nor
    an authorization-parameters object, fails with the error about the
    authorization parameters; and when it is a dictionary that
    [from_dict] of the authorization parameters rejects, that exception is
    the outcome. *)
Theorem X9_session_error_from_dict_failures (error_dict : dict) :
  (error_dict !! "code" = None ∨ error_dict !! "code" = Some PNone →
   SE.from_dict error_dict = inl (ValueError "Must have a 'code'"))
  ∧ (dict_get error_dict "code" ≠ PNone →
     isinstance (dict_get error_dict "authorization_parameters")
       TAuthorizationParameters = false →
     isinstance (dict_get error_dict "authorization_parameters") TDict
       = false →
     SE.from_dict error_dict
     = inl (ValueError "Must have 'authorization_parameters'"))
  ∧ (∀ param_dict e,
       dict_get error_dict "code" ≠ PNone →
       error_dict !! "authorization_parameters" = Some (PDict param_dict) →
       AP.from_dict param_dict = inl e →
       SE.from_dict error_dict = inl e).
Proof.
  rewrite SE_from_dict_unfold. unfold SE.__init__. split_and!.
  - intros Hcode%dict_get_is_none. by rewrite Hcode.
  - intros Hcode%is_none_false Hinst Hdict. rewrite Hcode.
    by destruct (dict_get error_dict "authorization_parameters").
  - intros param_dict e Hcode%is_none_false Hap He. rewrite Hcode.
    assert (dict_get error_dict "authorization_parameters" = PDict param_dict)
      as -> by (unfold dict_get; by rewrite Hap).
    by rewrite He.
Qed.

(** X10: [from_dict] of a session error succeeds on a mapping with a code
    that is not [None] and with [authorization_parameters] either a
    dictionary that [from_dict] of the authorization parameters accepts or
    an authorization-parameters object; the session error holds the code
    as given (of whatever type), the parsed or given parameters, and as
    extra fields the entries under all other keys.  There is no other way
    to succeed. *)
Theorem X10_session_error_from_dict_success (error_dict : dict) (x : SE.t) :
  SE.from_dict error_dict = inr x ↔
  ∃ code p,
    error_dict !! "code" = Some code
    ∧ code ≠ PNone
    ∧ (error_dict !! "authorization_parameters" = Some (PAuthParams p)
       ∨ ∃ param_dict,
           error_dict !! "authorization_parameters" = Some (PDict param_dict)
           ∧ AP.from_dict param_dict = inr p)
    ∧ x = SE.MkSessionError code p
            (extras_of SE.SUPPORTED_FIELDS error_dict).
Proof.
  rewrite SE_from_dict_unfold. unfold SE.__init__. rewrite or_empty_Some.
  split.
  - destruct (is_none (dict_get error_dict "code")) eqn:Hcode; [discriminate|].
    apply is_none_false in Hcode.
    pose proof (dict_get_not_none _ _ Hcode) as Hlook.
    assert (dict_get error_dict "authorization_parameters"
            = default PNone (error_dict !! "authorization_parameters"))
      as -> by done.
    destruct (error_dict !! "authorization_parameters")
      as [[| | | | |param_dict|p]|] eqn:Hap; simpl; try discriminate.
    + destruct (AP.from_dict param_dict) as [e|p] eqn:Hp; simpl;
        [discriminate|].
      intros [= <-]. exists (dict_get error_dict "code"), p.
      split_and!; [done | done | right; by exists param_dict | done].
    + intros [= <-]. exists (dict_get error_dict "code"), p.
      split_and!; [done | done | by left | done].
  - intros (code & p & Hcode & Hne & Hap & ->).
    assert (dict_get error_dict "code" = code) as ->
      by (unfold dict_get; by rewrite Hcode).
    apply is_none_false in Hne. rewrite Hne.
    destruct Hap as [Hap | (param_dict & Hap & Hp)].
    + assert (dict_get error_dict "authorization_parameters" = PAuthParams p)
        as -> by (unfold dict_get; by rewrite Hap).
      done.
    + assert (dict_get error_dict "authorization_parameters"
              = PDict param_dict)
        as -> by (unfold dict_get; by rewrite Hap).
      by rewrite Hp.
Qed.

(** ** Session errors parsed from the wire shape *)

(** The session error that [from_dict] returns for a mapping whose
    [authorization_parameters] is a dictionary. *)
Lemma SE_from_dict_wire (error_dict param_dict : dict) (x : SE.t) :
  error_dict !! "authorization_parameters" = Some (PDict param_dict) →
  SE.from_dict error_dict = inr x →
  dict_get error_dict "code" ≠ PNone
  ∧ AP.from_dict param_dict = inr (parsed param_dict)
  ∧ x = SE.MkSessionError (dict_get error_dict "code") (parsed param_dict)
          (extras_of SE.SUPPORTED_FIELDS error_dict).
Proof.
  intros Hap. rewrite SE_from_dict_unfold. unfold SE.__init__.
  rewrite or_empty_Some.
  destruct (is_none (dict_get error_dict "code")) eqn:Hcode; [discriminate|].
  apply is_none_false in Hcode.
  assert (dict_get error_dict "authorization_parameters" = PDict param_dict)
    as -> by (unfold dict_get; by rewrite Hap).
  destruct (AP.from_dict param_dict) as [e|p] eqn:Hp; simpl; [discriminate|].
  apply AP_from_dict_inr in Hp as ->. by intros [= <-].
Qed.

Lemma SE_to_dict_wire (error_dict param_dict : dict) (include_extra : bool) :
  SE.to_dict
    (SE.MkSessionError (dict_get error_dict "code") (parsed param_dict)
       (extras_of SE.SUPPORTED_FIELDS error_dict)) include_extra
  = inr (if include_extra
         then extras_of SE.SUPPORTED_FIELDS error_dict
              ∪ <[ "authorization_parameters" :=
                     PDict (without_null_fields param_dict) ]>
                  {[ "code" := dict_get error_dict "code" ]}
         else <[ "authorization_parameters" :=
                   PDict (set_fields_of param_dict) ]>
                {[ "code" := dict_get error_dict "code" ]}).
Proof.
  unfold SE.to_dict. simpl SE.authorization_parameters.
  destruct include_extra.
  - by rewrite to_dict_parsed_true.
  - by rewrite to_dict_parsed_false.
Qed.

Lemma SE_extras_union_base (error_dict : dict) (inner : pyval) :
  dict_get error_dict "code" ≠ PNone →
  is_Some (error_dict !! "authorization_parameters") →
  extras_of SE.SUPPORTED_FIELDS error_dict
  ∪ <[ "authorization_parameters" := inner ]>
      {[ "code" := dict_get error_dict "code" ]}
  = <[ "authorization_parameters" := inner ]> error_dict.
Proof.
  intros Hcode%dict_get_not_none Hap. apply map_eq. intros k.
  rewrite lookup_union, extras_of_lookup.
  destruct (decide (k = "authorization_parameters")) as [->|Hne1].
  { rewrite decide_True by in_keys. by rewrite !lookup_insert_eq. }
  rewrite !lookup_insert_ne by done.
  destruct (decide (k = "code")) as [->|Hne2].
  { rewrite decide_True by in_keys. by rewrite lookup_singleton_eq, Hcode. }
  rewrite lookup_singleton_ne by done.
  rewrite decide_False.
  - by destruct (error_dict !! k).
  - intros Hin%list_elem_of_In. simpl in Hin. intuition congruence.
Qed.

(** X11: a session error parsed from a mapping whose
    [authorization_parameters] is a dictionary serializes, with extras, to
    that mapping with the nested dictionary stripped of its recognized
    keys that are mapped to [None]; without extras, to the code and the
    nested recognized fields that are set, all other entries of both
    levels left out.  So when no recognized key of the nested dictionary
    is mapped to [None], serializing with extras gives the mapping back. *)
Theorem X11_session_error_to_dict_of_from_dict
    (error_dict param_dict : dict) (x : SE.t) :
  SE.from_dict error_dict = inr x →
  error_dict !! "authorization_parameters" = Some (PDict param_dict) →
  SE.to_dict x true
  = inr (<[ "authorization_parameters" :=
              PDict (without_null_fields param_dict) ]> error_dict)
  ∧ SE.to_dict x false
    = inr (<[ "authorization_parameters" := PDict (set_fields_of param_dict) ]>
             {[ "code" := dict_get error_dict "code" ]})
  ∧ ((∀ name, name ∈ keys AP.SUPPORTED_FIELDS →
              param_dict !! name ≠ Some PNone) →
     SE.to_dict x true = inr error_dict).
Proof.
  intros Hx Hap.
  destruct (SE_from_dict_wire _ _ _ Hap Hx) as (Hcode & _ & ->).
  rewrite !SE_to_dict_wire.
  rewrite SE_extras_union_base by (done || by rewrite Hap).
  split; [done|]. split; [done|].
  intros Hclean. rewrite without_null_fields_clean by done.
  by rewrite insert_id.
Qed.

Lemma X11_session_error_to_dict_witness :
  SE.to_dict
    (SE.MkSessionError (PStr "c")
       (MkAuthorizationParameters PNone PNone PNone PNone (PBool true) PNone ∅)
       {[ "extra_x" := PInt 5 ]}) false
  = inr (<[ "authorization_parameters" :=
              PDict (set_fields_of {[ "session_required_mfa" := PBool true ]}) ]>
           {[ "code" := dict_get sample_error "code" ]}).
Proof.
  apply (X11_session_error_to_dict_of_from_dict sample_error
           {[ "session_required_mfa" := PBool true ]}).
  - by_evaluation.
  - by_evaluation.
Defined.

(** X12: a session error parsed from a mapping whose
    [authorization_parameters] is a dictionary is given back by the round
    trip through [to_dict] with extras and [from_dict]: same code, same
    authorization parameters, same extra fields. *)
Theorem X12_session_error_roundtrip
    (error_dict param_dict : dict) (x : SE.t) :
  SE.from_dict error_dict = inr x →
  error_dict !! "authorization_parameters" = Some (PDict param_dict) →
  ∃ d, SE.to_dict x true = inr d ∧ SE.from_dict d = inr x.
Proof.
  intros Hx Hap.
  destruct (SE_from_dict_wire _ _ _ Hap Hx) as (Hcode & Hp & ->).
  rewrite SE_to_dict_wire.
  rewrite SE_extras_union_base by (done || by rewrite Hap).
  eexists. split; [reflexivity|].
  rewrite SE_from_dict_unfold.
  assert (dict_get
            (<[ "authorization_parameters" :=
                  PDict (without_null_fields param_dict) ]> error_dict) "code"
          = dict_get error_dict "code") as ->
    by by apply dict_get_insert_ne.
  rewrite dict_get_insert_eq.
  assert (extras_of SE.SUPPORTED_FIELDS
            (<[ "authorization_parameters" :=
                  PDict (without_null_fields param_dict) ]> error_dict)
          = extras_of SE.SUPPORTED_FIELDS error_dict) as ->.
  { apply map_eq. intros k. rewrite !extras_of_lookup.
    case_decide as Hk; [done|].
    rewrite lookup_insert_ne; [done|]. intros <-. apply Hk. in_keys. }
  unfold SE.__init__. rewrite or_empty_Some.
  apply is_none_false in Hcode. rewrite Hcode.
  destruct (AP_roundtrip_parsed param_dict Hp) as (d & Hd & Hback).
  rewrite to_dict_parsed_true in Hd. injection Hd as <-.
  by rewrite Hback.
Qed.

Lemma X12_session_error_roundtrip_witness :
  ∃ d, SE.to_dict
         (SE.MkSessionError (PStr "c")
            (MkAuthorizationParameters PNone PNone PNone PNone
               (PBool true) PNone ∅)
            {[ "extra_x" := PInt 5 ]}) true = inr d
       ∧ SE.from_dict d
         = inr (SE.MkSessionError (PStr "c")
                  (MkAuthorizationParameters PNone PNone PNone PNone
                     (PBool true) PNone ∅)
                  {[ "extra_x" := PInt 5 ]}).
Proof.
  apply (X12_session_error_roundtrip sample_error
           {[ "session_required_mfa" := PBool true ]}).
  - by_evaluation.
  - by_evaluation.
Defined.

(** ** Unrecognized top-level keys *)

Lemma SE_init_change_extra (code authorization_parameters : pyval)
    (extra extra' : option dict) :
  SE.__init__ code authorization_parameters extra' =
    match SE.__init__ code authorization_parameters extra with
    | inl e => inl e
    | inr x => inr (SE.MkSessionError (SE.code x) (SE.authorization_parameters x)
                      (default ∅ extra'))
    end.
Proof.
  unfold SE.__init__. rewrite !or_empty_default.
  destruct (is_none code); [done|].
  destruct authorization_parameters as [| | | | |param_dict|p]; try done.
  by destruct (AP.from_dict param_dict).
Qed.

(** X13: an entry under a key other than [code] and
    [authorization_parameters] never changes the outcome of [from_dict] of
    a session error on the rest of the mapping: the same exception with
    and without it, and on success the same code and authorization
    parameters, with the entry added to the extra fields. *)
Theorem X13_session_error_from_dict_unrecognized_key (error_dict : dict)
    (k : string) (v : pyval) :
  k ∉ keys SE.SUPPORTED_FIELDS →
  SE.from_dict (<[ k := v ]> error_dict) =
    match SE.from_dict error_dict with
    | inl e => inl e
    | inr x => inr (SE.MkSessionError (SE.code x) (SE.authorization_parameters x)
                      (<[ k := v ]> (SE.extra_fields x)))
    end.
Proof.
  intros Hk.
  assert (∀ name, name ∈ keys SE.SUPPORTED_FIELDS →
                  dict_get (<[ k := v ]> error_dict) name
                  = dict_get error_dict name) as Hget.
  { intros name Hname. apply dict_get_insert_ne. by intros ->. }
  assert (extras_of SE.SUPPORTED_FIELDS (<[ k := v ]> error_dict)
          = <[ k := v ]> (extras_of SE.SUPPORTED_FIELDS error_dict)) as Hextras.
  { apply map_eq. intros k'. rewrite extras_of_lookup.
    destruct (decide (k = k')) as [<-|Hne].
    - by rewrite decide_False, !lookup_insert_eq.
    - rewrite !lookup_insert_ne, extras_of_lookup by done. done. }
  rewrite !SE_from_dict_unfold, !Hget, Hextras by in_keys.
  rewrite (SE_init_change_extra _ _
             (Some (extras_of SE.SUPPORTED_FIELDS error_dict))
             (Some (<[ k := v ]> (extras_of SE.SUPPORTED_FIELDS error_dict)))).
  destruct (SE.__init__ _ _ _) as [e|x] eqn:Hx; [done|].
  apply SE_init_inr in Hx as (_ & _ & ->). reflexivity.
Qed.

Lemma X13_session_error_unrecognized_key_witness :
  SE.from_dict sample_error
  = inr (SE.MkSessionError (PStr "c")
           (MkAuthorizationParameters PNone PNone PNone PNone
              (PBool true) PNone ∅)
           {[ "extra_x" := PInt 5 ]}).
Proof.
  assert (sample_error
          = <[ "extra_x" := PInt 5 ]>
              (<[ "code" := PStr "c" ]>
                 {[ "authorization_parameters" :=
                      PDict {[ "session_required_mfa" := PBool true ]} ]}))
    as -> by by_evaluation.
  rewrite (X13_session_error_from_dict_unrecognized_key _ "extra_x" (PInt 5)).
  - by_evaluation.
  - intros Hin%list_elem_of_In. simpl in Hin. intuition discriminate.
Defined.
